(** * photograph-api: the cache-coordinated query layer of [server.js]

    A shallow embedding of the Express handlers of [src/server.js]
    (by-id lookup, tag search, paged listing, upload, soft delete) over an
    explicit world made of the Redis cache, the two Prisma tables and a
    log of the calls issued to both collaborators.

    Every handler is embedded as it is written.  Which of several handlers
    registered for one method and path Express dispatches to (GET
    /v1/videos and DELETE /v1/videos/:id are registered more than once)
    is routing: the statements about one handler do not depend on it, and
    module [Router] embeds the route table for the statements about
    whole requests.

    Numbers are the doubles of JavaScript that are integers: what
    [parseInt] reads is rounded to the nearest double, and so is what the
    handlers compute from it.  The store orders the rows of a query that
    pages by id and leaves the others in the order of the table. *)

From Stdlib Require Import ZArith List Ascii String Bool Lia DecimalString
  DecimalPos DecimalZ Sorted Permutation.
From stdpp Require Import base option gmap strings list.

Import ListNotations.
Local Open Scope string_scope.
Local Open Scope list_scope.
Local Open Scope Z_scope.

(** ** JavaScript strings

    Strings are sequences of code units in the range 0..255.  The
    white-space class of [String.prototype.trim] is restricted to that
    range: TAB, LF, VT, FF, CR, SPACE and NBSP. *)

Module JsString.

Definition comma : ascii := ","%char.

Definition is_ws (c : ascii) : bool :=
  let n := nat_of_ascii c in
  ((9 <=? n)%nat && (n <=? 13)%nat) || (n =? 32)%nat || (n =? 160)%nat.

Fixpoint trimStart (s : string) : string :=
  match s with
  | EmptyString => EmptyString
  | String c r => if is_ws c then trimStart r else s
  end.

Fixpoint trimEnd (s : string) : string :=
  match s with
  | EmptyString => EmptyString
  | String c r =>
      match trimEnd r with
      | EmptyString => if is_ws c then EmptyString else String c EmptyString
      | r' => String c r'
      end
  end.

(** [s.trim()] *)
Definition trim (s : string) : string := trimEnd (trimStart s).

(** [s.split(sep)] for a one-character separator: never the empty list. *)
Fixpoint split (sep : ascii) (s : string) : list string :=
  match s with
  | EmptyString => [EmptyString]
  | String c r =>
      if Ascii.eqb c sep then EmptyString :: split sep r
      else match split sep r with
           | h :: t => String c h :: t
           | [] => [String c EmptyString]
           end
  end.

(** [l.join(sep)] *)
Definition join (sep : string) (l : list string) : string :=
  String.concat sep l.

(** Truthiness of a string: only the empty string is falsy. *)
Definition truthy (s : string) : bool :=
  match s with EmptyString => false | String _ _ => true end.

Definition digit_val (c : ascii) : option Z :=
  let n := nat_of_ascii c in
  if ((48 <=? n) && (n <=? 57))%nat then Some (Z.of_nat n - 48) else None.

(** The longest prefix of decimal digits, [None] when there is none. *)
Fixpoint digits (s : string) (acc : option Z) : option Z :=
  match s with
  | EmptyString => acc
  | String c r =>
      match digit_val c with
      | Some d => digits r (Some (10 * default 0 acc + d))
      | None => acc
      end
  end.

(** The largest power of two that is not a double: it stands for
    [Infinity], and its opposite for [-Infinity]. *)
Definition infinity : Z := 2 ^ 1024.

Definition is_infinite (z : Z) : bool := infinity <=? Z.abs z.

(** The double nearest to an integer: an integer below [2 ^ 53] is a
    double; beyond, the integer is rounded to 53 significant bits, a tie
    going to the even one, and what rounds to [2 ^ 1024] or more is
    [Infinity]. *)
Definition to_double (z : Z) : Z :=
  let a := Z.abs z in
  if a <? 2 ^ 53 then z
  else
    let e := Z.log2 a - 52 in
    let q := Z.shiftr a e in
    let r := a - Z.shiftl q e in
    let half := Z.shiftl 1 (e - 1) in
    let q' := if (half <? r) || ((r =? half) && Z.odd q) then q + 1 else q in
    let m := Z.shiftl q' e in
    Z.sgn z * (if infinity <=? m then infinity else m).

(** [parseInt(s, 10)]: the double nearest to the integer written by the
    leading digits; [None] is NaN. *)
Definition parseInt (s : string) : option Z :=
  to_double <$>
    match trimStart s with
    | String "-"%char r => Z.opp <$> digits r None
    | String "+"%char r => digits r None
    | t => digits t None
    end.

(** Does the string contain the character? *)
Fixpoint has_char (c : ascii) (s : string) : bool :=
  match s with
  | EmptyString => false
  | String d r => Ascii.eqb d c || has_char c r
  end.

End JsString.

(** ** JSON values and the codec

    [json] is what [res.json] is given after [toJSON] normalisation: a
    [Date] is already its string form.  [JSON.parse], [JSON.stringify]
    and the string form of a date are built-ins of the runtime; the
    handlers are stated over any codec and evaluated with the concrete one
    of module [Json] below. *)

#[local] Set Warnings "-register-all".

Inductive json : Type :=
  | JNull
  | JBool (b : bool)
  | JNum (n : Z)
  | JStr (s : string)
  | JArr (items : list json)
  | JObj (fields : list (string * json)).

Class JsonCodec := {
  (** [JSON.parse]; [None] stands for the [SyntaxError] it throws *)
  JSON_parse : string -> option json;
  (** [JSON.stringify] *)
  JSON_stringify : json -> string;
  (** [Date.prototype.toJSON] of a timestamp *)
  Date_toJSON : Z -> string
}.

(** ** Records of the store (schema.prisma: models Photo and Video) *)

Inductive Model : Type := photo | video.

Definition model_name (m : Model) : string :=
  match m with photo => "photo" | video => "video" end.

(** Timestamps are seconds since the epoch. *)
Record Asset : Type := mkAsset {
  aid : string;
  url : string;
  tags : list string;
  deletedAt : option Z;
  title : string;
  createdAt : Z;
  updatedAt : Z
}.

(** ** The world: cache, tables, clock and the log of collaborator calls *)

(** The [where] clauses the handlers build. *)
Inductive Where : Type :=
  | WAll                              (* {} or no argument *)
  | WHas (tag : string)               (* { tags: { has: tag } } *)
  | WHasSome (tagList : list string). (* { tags: { hasSome: tagList } } *)

(** A JavaScript number restricted to the doubles that are integers (with
    [JsString.infinity] for Infinity); [None] is NaN. *)
Definition num : Type := option Z.

Inductive Call : Type :=
  | RedisGet (key : string)
  | RedisSetEx (key : string) (ttl : Z) (value : string)
  | PrismaFindUnique (m : Model) (id : string)
  | PrismaFindMany (m : Model) (w : Where) (paging : option (num * num))
  | PrismaCount (m : Model) (w : Where)
  | PrismaCreate (m : Model) (id : option string)
  | PrismaUpdate (m : Model) (id : string).

Definition is_redis_call (c : Call) : bool :=
  match c with RedisGet _ | RedisSetEx _ _ _ => true | _ => false end.

Definition is_store_call (c : Call) : bool := negb (is_redis_call c).

(** State of the cache backend as the client's calls see it: answering,
    refusing writes (a read-only replica, or out of memory), or failing
    every call (a closed client, a command refused or timed out); the
    string is the message of the error the call rejects with.  A client
    that is reconnecting queues its commands instead of rejecting them, and
    the request waits: that state has no outcome and is not one of these. *)
Inductive Health : Type :=
  | Healthy
  | ReadOnly (msg : string)
  | Unreachable (msg : string).

(** An error object: [err.code], [err.status], [err.message]. *)
Record JsError : Type := mkError {
  err_code : option string;
  err_status : option Z;
  err_message : string
}.

Record World : Type := mkWorld {
  clock : Z;                              (* the time of [new Date()] *)
  health : Health;
  cache : gmap string (string * Z);       (* key -> value, expiry time *)
  photoTable : list Asset;                (* rows in the store's order *)
  videoTable : list Asset;
  calls : list Call
}.

Definition table (m : Model) (w : World) : list Asset :=
  match m with photo => photoTable w | video => videoTable w end.

Definition set_table (m : Model) (t : list Asset) (w : World) : World :=
  match m with
  | photo => mkWorld (clock w) (health w) (cache w) t (videoTable w) (calls w)
  | video => mkWorld (clock w) (health w) (cache w) (photoTable w) t (calls w)
  end.

Definition set_cache (c : gmap string (string * Z)) (w : World) : World :=
  mkWorld (clock w) (health w) c (photoTable w) (videoTable w) (calls w).

Definition record_call (c : Call) (w : World) : World :=
  mkWorld (clock w) (health w) (cache w) (photoTable w) (videoTable w)
          (calls w ++ [c]).

(** Time passing between two requests. *)
Definition advance (d : Z) (w : World) : World :=
  mkWorld (clock w + d) (health w) (cache w) (photoTable w) (videoTable w)
          (calls w).

(** What a GET on the cache sees at the world's time: expired entries are
    gone. *)
Definition cache_lookup (key : string) (w : World) : option string :=
  match cache w !! key with
  | Some (v, expiry) => if clock w <? expiry then Some v else None
  | None => None
  end.

(** ** The monad of a handler body: state and thrown errors *)

Inductive Outcome (A : Type) : Type :=
  | Ret (a : A)
  | Throw (e : JsError).
Arguments Ret {A} a.
Arguments Throw {A} e.

Definition M (A : Type) : Type := World -> Outcome A * World.

Definition ret {A} (a : A) : M A := fun w => (Ret a, w).
Definition throw {A} (e : JsError) : M A := fun w => (Throw e, w).
Definition bind {A B} (m : M A) (k : A -> M B) : M B :=
  fun w => match m w with
           | (Ret a, w') => k a w'
           | (Throw e, w') => (Throw e, w')
           end.

Notation "'let*' x := m 'in' k" := (bind m (fun x => k))
  (at level 10, x name, m at level 100, k at level 200).
Notation "'do' m 'in' k" := (bind m (fun _ => k))
  (at level 10, m at level 100, k at level 200).

(** [try { body } catch (err) { handler(err) }] *)
Definition try_catch {A} (body : M A) (handler : JsError -> M A) : M A :=
  fun w => match body w with
           | (Ret a, w') => (Ret a, w')
           | (Throw e, w') => handler e w'
           end.

(** [Promise.all([a, b])]: both calls are issued; the first rejection is
    the one thrown. *)
Definition promise_all2 {A B} (ma : M A) (mb : M B) : M (A * B) :=
  fun w => let (ra, w1) := ma w in
           let (rb, w2) := mb w1 in
           match ra, rb with
           | Ret a, Ret b => (Ret (a, b), w2)
           | Throw e, _ => (Throw e, w2)
           | Ret _, Throw e => (Throw e, w2)
           end.

(** ** The cache client (node-redis) *)

Definition redis_error (msg : string) : JsError := mkError None None msg.

(** [redisClient.get(key)]: the value, or [null] when absent or expired;
    rejects when the call fails. *)
Definition redis_get (key : string) : M (option string) :=
  fun w =>
    let w' := record_call (RedisGet key) w in
    match health w with
    | Unreachable msg => (Throw (redis_error msg), w')
    | Healthy | ReadOnly _ => (Ret (cache_lookup key w), w')
    end.

(** [redisClient.setEx(key, ttl, value)]: the entry expires [ttl] seconds
    after the write. *)
Definition redis_setEx (key : string) (ttl : Z) (value : string) : M unit :=
  fun w =>
    let w' := record_call (RedisSetEx key ttl value) w in
    match health w with
    | Healthy => (Ret tt, set_cache (<[key := (value, clock w + ttl)]> (cache w)) w')
    | ReadOnly msg | Unreachable msg => (Throw (redis_error msg), w')
    end.

(** ** The record store (Prisma client) *)

Definition has_tag (t : string) (a : Asset) : bool :=
  existsb (String.eqb t) (tags a).

Definition matches (wh : Where) (a : Asset) : bool :=
  match wh with
  | WAll => true
  | WHas t => has_tag t a
  | WHasSome l => existsb (fun t => has_tag t a) l
  end.

Definition find_by_id (id : string) (t : list Asset) : option Asset :=
  List.find (fun a => String.eqb (aid a) id) t.

Definition prisma_validation_error : JsError :=
  mkError None None "Invalid prisma invocation: argument validation failed".

Definition prisma_unique_error : JsError :=
  mkError (Some "P2002") None "Unique constraint failed on the fields: (id)".

Definition prisma_not_found_error : JsError :=
  mkError (Some "P2025") None "Record to update not found.".

(** Rows in the order of their identifiers, compared as strings of code
    units: the [ORDER BY id] the client adds to a query that pages.  The
    identifiers [cuid()] makes are lower-case letters and digits, which the
    collations of the database order alike. *)
Fixpoint insert_by_id (a : Asset) (l : list Asset) : list Asset :=
  match l with
  | [] => [a]
  | b :: r =>
      if String.leb (aid a) (aid b) then a :: l else b :: insert_by_id a r
  end.

Definition order_by_id (rows : list Asset) : list Asset :=
  fold_right insert_by_id [] rows.

(** An [Int] argument of a query is a signed integer of 64 bits. *)
Definition is_int64 (z : Z) : bool := (- 2 ^ 63 <=? z) && (z <? 2 ^ 63).

(** [skip]/[take] of [findMany].  Without them the rows come in the order
    of the table; with them they are ordered by id first.  NaN, a number
    that does not fit 64 bits and a negative [skip] are rejected by the
    client; a negative [take] reads from the end of the ordered rows. *)
Definition page_rows (paging : option (num * num)) (rows : list Asset)
  : Outcome (list Asset) :=
  match paging with
  | None => Ret rows
  | Some (Some skip, Some take) =>
      if negb (is_int64 skip && is_int64 take) || (skip <? 0)
      then Throw prisma_validation_error
      else if 0 <=? take
           then Ret (firstn (Z.to_nat take)
                            (skipn (Z.to_nat skip) (order_by_id rows)))
           else Ret (rev (firstn (Z.to_nat (- take))
                                 (skipn (Z.to_nat skip)
                                        (rev (order_by_id rows)))))
  | Some _ => Throw prisma_validation_error
  end.

Definition prisma_findUnique (m : Model) (id : string) : M (option Asset) :=
  fun w => (Ret (find_by_id id (table m w)),
            record_call (PrismaFindUnique m id) w).

Definition prisma_findMany (m : Model) (wh : Where)
    (paging : option (num * num)) : M (list Asset) :=
  fun w => (page_rows paging (List.filter (matches wh) (table m w)),
            record_call (PrismaFindMany m wh paging) w).

Definition prisma_count (m : Model) (wh : Where) : M Z :=
  fun w => (Ret (Z.of_nat (length (List.filter (matches wh) (table m w)))),
            record_call (PrismaCount m wh) w).

(** The [data] of a [create]: [tags] is whatever [JSON.parse] returned. *)
Record CreateData : Type := mkCreateData {
  cd_url : string;
  cd_tags : json;
  cd_id : option string
}.

(** What a [String[]] column accepts on [create]: an array of strings, or
    the object [{ set: [...] }] holding one. *)
Definition as_strings (items : list json) : option (list string) :=
  mapM (fun x => match x with JStr s => Some s | _ => None end) items.

Definition as_string_list (j : json) : option (list string) :=
  match j with
  | JArr items => as_strings items
  | JObj [("set", JArr items)] => as_strings items
  | _ => None
  end.

(** [prisma.<model>.create({ data })].  [cuid] is the identifier the
    [@default(cuid())] of the schema generates when [data.id] is
    undefined.  The new row has [title] empty, [deletedAt] null and both
    timestamps at the current time. *)
Definition prisma_create (m : Model) (d : CreateData) (cuid : string)
  : M Asset :=
  fun w =>
    let w' := record_call (PrismaCreate m (cd_id d)) w in
    match as_string_list (cd_tags d) with
    | None => (Throw prisma_validation_error, w')
    | Some ts =>
        let id := default cuid (cd_id d) in
        match find_by_id id (table m w) with
        | Some _ => (Throw prisma_unique_error, w')
        | None =>
            let a := mkAsset id (cd_url d) ts None "" (clock w) (clock w) in
            (Ret a, set_table m (table m w ++ [a]) w')
        end
    end.

(** The write of a soft delete: [data: { deletedAt: d }], with the
    [@updatedAt] column refreshed by the client. *)
Definition mark_deleted (d now : Z) (a : Asset) : Asset :=
  mkAsset (aid a) (url a) (tags a) (Some d) (title a) (createdAt a) now.

(** Rewrites the row with the given id in place; [None] when there is no
    such row. *)
Fixpoint update_row (id : string) (f : Asset -> Asset) (t : list Asset)
  : option (Asset * list Asset) :=
  match t with
  | [] => None
  | a :: r =>
      if String.eqb (aid a) id then Some (f a, f a :: r)
      else match update_row id f r with
           | Some (u, r') => Some (u, a :: r')
           | None => None
           end
  end.

(** [prisma.<model>.update({ where: { id }, data: { deletedAt } })] *)
Definition prisma_update (m : Model) (id : string) (d : Z) : M Asset :=
  fun w =>
    let w' := record_call (PrismaUpdate m id) w in
    match update_row id (mark_deleted d (clock w)) (table m w) with
    | Some (a, t') => (Ret a, set_table m t' w')
    | None => (Throw prisma_not_found_error, w')
    end.

(** ** Request values and responses *)

(** What [req.params] and [req.query] can hold. *)
Inductive JsValue : Type :=
  | VUndefined
  | VNull
  | VBool (b : bool)
  | VNumber (n : Z)
  | VString (s : string)
  | VArray (items : list string)
  | VObject (fields : list (string * string)).

(** [!!v] *)
Definition js_truthy (v : JsValue) : bool :=
  match v with
  | VUndefined | VNull => false
  | VBool b => b
  | VNumber n => negb (n =? 0)
  | VString s => JsString.truthy s
  | VArray _ | VObject _ => true
  end.

(** [typeof v === "string"] *)
Definition is_string (v : JsValue) : bool :=
  match v with VString _ => true | _ => false end.

Definition decimal (n : Z) : string := NilZero.string_of_int (Z.to_int n).

(** [String(v)], also the conversion of a template literal. *)
Definition js_to_string (v : JsValue) : string :=
  match v with
  | VUndefined => "undefined"
  | VNull => "null"
  | VBool true => "true"
  | VBool false => "false"
  | VNumber n => decimal n
  | VString s => s
  | VArray items => JsString.join "," items
  | VObject _ => "[object Object]"
  end.

Record Response : Type := mkResponse {
  status : Z;
  body : json
}.

(** [res.json(v)] *)
Definition res_json (v : json) : Response := mkResponse 200 v.

(** [res.status(s).json(v)] *)
Definition res_status_json (s : Z) (v : json) : Response := mkResponse s v.

(** [{ error: msg }] *)
Definition error_body (msg : string) : json := JObj [("error", JStr msg)].

(** [errorHandler]: [err.status || 500] and
    [err.message || 'Internal Server Error']. *)
Definition errorHandler (err : JsError) : Response :=
  res_status_json
    (match err_status err with
     | Some s => if s =? 0 then 500 else s
     | None => 500
     end)
    (error_body (if JsString.truthy (err_message err) then err_message err
                 else "Internal Server Error")).

(** [next(err)]: the only error middleware is [errorHandler]. *)
Definition next (err : JsError) : M Response := ret (errorHandler err).

(** The queries [fetchAndCache] is handed. *)
Inductive PrismaQuery : Type :=
  | FindUnique (id : string)
  | FindMany (wh : Where).

Inductive QueryResult : Type :=
  | OneRow (r : option Asset)
  | ManyRows (rows : list Asset).

(** [prisma[modelName][prismaQuery.method](prismaQuery.options)] *)
Definition prisma_run (m : Model) (q : PrismaQuery) : M QueryResult :=
  match q with
  | FindUnique id => let* r := prisma_findUnique m id in ret (OneRow r)
  | FindMany wh => let* rows := prisma_findMany m wh None in ret (ManyRows rows)
  end.

(** [!result || (Array.isArray(result) && result.length === 0)] *)
Definition no_result (r : QueryResult) : bool :=
  match r with
  | OneRow None => true
  | OneRow (Some _) => false
  | ManyRows [] => true
  | ManyRows (_ :: _) => false
  end.

Definition syntax_error : JsError :=
  mkError None None "Unexpected token in JSON".

Section Handlers.

Context {codec : JsonCodec}.

Definition date_json (t : Z) : json := JStr (Date_toJSON t).

(** A row as [res.json] and [JSON.stringify] see it, fields in schema
    order. *)
Definition asset_json (a : Asset) : json :=
  JObj [ ("id", JStr (aid a));
         ("url", JStr (url a));
         ("tags", JArr (map JStr (tags a)));
         ("deletedAt", match deletedAt a with
                       | Some t => date_json t
                       | None => JNull
                       end);
         ("title", JStr (title a));
         ("createdAt", date_json (createdAt a));
         ("updatedAt", date_json (updatedAt a)) ].

Definition result_json (r : QueryResult) : json :=
  match r with
  | OneRow (Some a) => asset_json a
  | OneRow None => JNull
  | ManyRows rows => JArr (map asset_json rows)
  end.

(** [JSON.parse(s)] as a step of a handler. *)
Definition json_parse (s : string) : M json :=
  match JSON_parse s with
  | Some v => ret v
  | None => throw syntax_error
  end.

(** server.js, lines 88-113. *)
Definition fetchAndCache (modelName : Model) (identifier : string)
    (redisKey : string) (prismaQuery : PrismaQuery) : M Response :=
  try_catch
    (let* data := redis_get redisKey in
     match data with
     | Some (String _ _ as cached) =>
         let* v := json_parse cached in
         ret (res_json v)
     | Some EmptyString | None =>
         let* result := prisma_run modelName prismaQuery in
         if no_result result then
           ret (res_status_json 404
                  (error_body (model_name modelName +:+ " not found")))
         else
           do redis_setEx redisKey 3600 (JSON_stringify (result_json result)) in
           ret (res_json (result_json result))
     end)
    next.

(** [`photos:id:${id}`], line 161. *)
Definition photoIdKey (id : string) : string := "photos:id:" +:+ id.

(** GET /v1/photos/:id, lines 152-174. *)
Definition getPhotoById (id : JsValue) : M Response :=
  try_catch
    (if negb (js_truthy id) || negb (is_string id) then
       ret (res_status_json 400 (error_body "Invalid photo ID"))
     else
       let redisKey := photoIdKey (js_to_string id) in
       fetchAndCache photo (js_to_string id) redisKey
                     (FindUnique (js_to_string id)))
    next.

(** [tags.split(",").map(tag => tag.trim())] *)
Definition tag_list (tags : string) : list string :=
  map JsString.trim (JsString.split JsString.comma tags).

(** [`photos:tags:${tagList.join(",")}`], line 190, and its twin for
    videos, line 325. *)
Definition photosTagsKey (tags : string) : string :=
  "photos:tags:" +:+ JsString.join "," (tag_list tags).

Definition videosTagsKey (tags : string) : string :=
  "videos:tags:" +:+ JsString.join "," (tag_list tags).

(** GET /v1/photos?tags=..., lines 178-209. *)
Definition searchPhotosByTags (tags : JsValue) : M Response :=
  try_catch
    (if negb (js_truthy tags) || negb (is_string tags) then
       ret (res_status_json 400 (error_body "Invalid tags"))
     else
       let tagList := tag_list (js_to_string tags) in
       let redisKey := photosTagsKey (js_to_string tags) in
       fetchAndCache photo (js_to_string tags) redisKey
                     (FindMany (WHasSome tagList)))
    next.

(** GET /v1/videos?tags=..., lines 307-344. *)
Definition searchVideosByTags (tags : JsValue) : M Response :=
  try_catch
    (if negb (js_truthy tags) then
       ret (res_status_json 400
              (error_body "Tags query parameter is required"))
     else if negb (is_string tags) then
       ret (res_status_json 400
              (error_body "Tags should be a comma-separated string"))
     else
       let tagList := tag_list (js_to_string tags) in
       let redisKey := videosTagsKey (js_to_string tags) in
       fetchAndCache video (js_to_string tags) redisKey
                     (FindMany (WHasSome tagList)))
    next.

(** GET /v1/videos, the unfiltered listing of lines 211-222. *)
Definition listVideos : M Response :=
  try_catch
    (let* videos := prisma_findMany video WAll None in
     ret (res_json (JObj [ ("videos", JArr (map asset_json videos));
                           ("totalVideos", JNum (Z.of_nat (length videos))) ])))
    next.

(** [a - b] and [a * b] on numbers: the exact result, rounded to a
    double; [0 * Infinity] is NaN. *)
Definition js_sub (a b : Z) : Z := JsString.to_double (a - b).

Definition js_mul (a : Z) (b : num) : num :=
  match b with
  | Some n =>
      if ((a =? 0) && JsString.is_infinite n)
         || (JsString.is_infinite a && (n =? 0))
      then None
      else Some (JsString.to_double (a * n))
  | None => None
  end.

(** [Math.ceil(a / b)] for a count [a]; a division by zero or by NaN is
    not an integer (it is written [null] in a response), a division by
    Infinity is zero.  The quotient of a count below [2 ^ 53] is rounded
    to a double without crossing an integer, so that the result is the
    exact one. *)
Definition ceil_div (a : Z) (b : num) : num :=
  match b with
  | Some n =>
      if n =? 0 then None
      else if JsString.is_infinite n then Some 0
      else Some (- ((- a) / n))
  | None => None
  end.

(** A number in a response: [JSON.stringify] writes NaN and the infinities
    as [null]. *)
Definition num_json (n : num) : json :=
  match n with Some z => JNum z | None => JNull end.

Definition double_json (z : Z) : json :=
  if JsString.is_infinite z then JNull else JNum z.

(** [a < b] on numbers: false as soon as one side is NaN. *)
Definition num_lt (a b : num) : bool :=
  match a, b with
  | Some x, Some y => x <? y
  | _, _ => false
  end.

(** The query of the paged listing: [page], [limit] and [tag] are absent
    or strings. *)
Record ListQuery : Type := mkListQuery {
  q_page : option string;
  q_limit : option string;
  q_tag : option string
}.

(** [parseInt(page, 10) > 0 ? parseInt(page, 10) : 1], with the default
    [page = 1]. *)
Definition currentPage_of (q : ListQuery) : Z :=
  match q_page q with
  | None => 1
  | Some p => match JsString.parseInt p with
              | Some n => if 0 <? n then n else 1
              | None => 1
              end
  end.

(** [parseInt(limit, 10)], with the default [limit = 10]. *)
Definition pageSize_of (q : ListQuery) : num :=
  match q_limit q with
  | None => Some 10
  | Some l => JsString.parseInt l
  end.

(** [tag ? { tags: { has: tag.trim() } } : {}] *)
Definition where_of (q : ListQuery) : Where :=
  match q_tag q with
  | Some (String _ _ as tag) => WHas (JsString.trim tag)
  | Some EmptyString | None => WAll
  end.

(** [!limit || pageSize === 0] *)
Definition isFetchAll_of (q : ListQuery) : bool :=
  match q_limit q with
  | Some EmptyString => true
  | _ => match pageSize_of q with Some 0 => true | _ => false end
  end.

(** GET /v1/videos with [page], [limit], [tag], lines 421-470. *)
Definition listVideosPaged (q : ListQuery) : M Response :=
  try_catch
    (let currentPage := currentPage_of q in
     let pageSize := pageSize_of q in
     let where_ := where_of q in
     let isFetchAll := isFetchAll_of q in
     let paging :=
       if isFetchAll then None
       else Some (js_mul (js_sub currentPage 1) pageSize, pageSize) in
     let* both := promise_all2 (prisma_findMany video where_ paging)
                               (prisma_count video where_) in
     let videos := fst both in
     let totalVideos := snd both in
     let totalPages :=
       if isFetchAll then Some 1 else ceil_div totalVideos pageSize in
     ret (res_json (JObj
       [ ("videos", JArr (map asset_json videos));
         ("totalVideos", JNum totalVideos);
         ("totalPages", num_json totalPages);
         ("currentPage", if isFetchAll then JNull else double_json currentPage);
         ("hasNextPage",
          JBool (negb isFetchAll && num_lt (Some currentPage) totalPages));
         ("hasPreviousPage", JBool (negb isFetchAll && (1 <? currentPage))) ])))
    next.

(** The multipart request of an upload: the stored file name when a file
    came with it, and the text fields [tags] and [imageId]. *)
Record UploadRequest : Type := mkUpload {
  u_file : option string;
  u_tags : option string;
  u_imageId : option string
}.

Definition field_truthy (f : option string) : bool :=
  match f with Some s => JsString.truthy s | None => false end.

(** POST /v1/photos/upload, lines 226-271.  [cuid] is the identifier the
    store generates when none is supplied. *)
Definition uploadPhoto (req : UploadRequest) (cuid : string) : M Response :=
  try_catch
    (match u_file req with
     | None => ret (res_status_json 400 (error_body "Photo file is required"))
     | Some filename =>
       if negb (field_truthy (u_tags req)) then
         ret (res_status_json 400 (error_body "Tags are required"))
       else
         let* photoCount := prisma_count photo WAll in
         if 50 <=? photoCount then
           ret (res_status_json 400
                  (error_body "Photo storage limit reached (50)"))
         else
           let* existingPhoto :=
             (if field_truthy (u_imageId req)
              then prisma_findUnique photo (default "" (u_imageId req))
              else ret None) in
           match existingPhoto with
           | Some _ =>
               ret (res_status_json 400 (error_body "Photo ID already exists"))
           | None =>
               let* parsed := json_parse (default "" (u_tags req)) in
               let* newPhoto :=
                 prisma_create photo
                   (mkCreateData ("/uploads/" +:+ filename) parsed
                                 (u_imageId req)) cuid in
               ret (res_status_json 201 (asset_json newPhoto))
           end
     end)
    next.

(** POST /v1/videos/upload, lines 382-417. *)
Definition uploadVideo (req : UploadRequest) (cuid : string) : M Response :=
  try_catch
    (match u_file req with
     | None => ret (res_status_json 400 (error_body "Video file is required"))
     | Some filename =>
       if negb (field_truthy (u_tags req)) then
         ret (res_status_json 400 (error_body "Tags are required"))
       else
         let* videoCount := prisma_count video WAll in
         if 20 <=? videoCount then
           ret (res_status_json 400
                  (error_body "Video storage limit reached (20)"))
         else
           let* parsed := json_parse (default "" (u_tags req)) in
           let* newVideo :=
             prisma_create video
               (mkCreateData ("/uploads/" +:+ filename) parsed None) cuid in
           ret (res_status_json 201 (asset_json newVideo))
     end)
    next.

Definition has_code (code : string) (err : JsError) : bool :=
  match err_code err with Some c => String.eqb c code | None => false end.

(** [new Date()] *)
Definition new_Date : M Z := fun w => (Ret (clock w), w).

(** DELETE /v1/photos/:id, lines 349-379.  The [!deletedPhoto] test never
    fires: [update] resolves to the row or rejects. *)
Definition deletePhoto (id : JsValue) : M Response :=
  try_catch
    (if negb (js_truthy id) || negb (is_string id) then
       ret (res_status_json 400 (error_body "Invalid photo ID"))
     else
       let* now := new_Date in
       let* deletedPhoto := prisma_update photo (js_to_string id) now in
       ret (res_json (asset_json deletedPhoto)))
    (fun err =>
       if has_code "P2025" err then
         ret (res_status_json 404 (error_body "Photo not found"))
       else next err).

(** DELETE /v1/videos/:id as first registered, lines 275-302. *)
Definition deleteVideoFirst (id : JsValue) : M Response :=
  try_catch
    (if negb (js_truthy id) || negb (is_string id) then
       ret (res_status_json 400 (error_body "Invalid video ID"))
     else
       let* now := new_Date in
       let* deletedVideo := prisma_update video (js_to_string id) now in
       ret (res_json (JObj [ ("message", JStr "Video deleted successfully");
                             ("video", asset_json deletedVideo) ])))
    (fun err =>
       if has_code "P2025" err then
         ret (res_status_json 404 (error_body "Video not found"))
       else next err).

(** DELETE /v1/videos/:id as registered again, lines 474-496. *)
Definition deleteVideo (id : JsValue) : M Response :=
  try_catch
    (if negb (js_truthy id) || negb (is_string id) then
       ret (res_status_json 400 (error_body "Invalid video ID"))
     else
       let* now := new_Date in
       let* deletedVideo := prisma_update video (js_to_string id) now in
       ret (res_json (asset_json deletedVideo)))
    (fun err =>
       next (if has_code "P2025" err
             then mkError None (Some 404) "Video not found"
             else err)).

End Handlers.

(** ** A concrete codec

    A printer and a parser for the JSON the service exchanges: integers
    only, and in strings only the escapes of the quote and the backslash.
    The theorems below hold for every codec; this one evaluates the
    handlers on concrete requests. *)

Module Json.

Definition dquote : ascii := ascii_of_nat 34.
Definition backslash : ascii := ascii_of_nat 92.

Fixpoint escape (s : string) : string :=
  match s with
  | EmptyString => EmptyString
  | String c r =>
      if Ascii.eqb c dquote || Ascii.eqb c backslash
      then String backslash (String c (escape r))
      else String c (escape r)
  end.

Definition quote (s : string) : string :=
  String dquote (escape s +:+ String dquote EmptyString).

Fixpoint stringify (j : json) : string :=
  match j with
  | JNull => "null"
  | JBool true => "true"
  | JBool false => "false"
  | JNum n => decimal n
  | JStr s => quote s
  | JArr items => "[" +:+ JsString.join "," (map stringify items) +:+ "]"
  | JObj fields =>
      "{" +:+ JsString.join ","
                (map (fun kv => quote (fst kv) +:+ ":" +:+ stringify (snd kv))
                     fields) +:+ "}"
  end.

Fixpoint skip_ws (s : string) : string :=
  match s with
  | String c r =>
      let n := nat_of_ascii c in
      if ((n =? 32) || (n =? 9) || (n =? 10) || (n =? 13))%nat
      then skip_ws r else s
  | EmptyString => EmptyString
  end.

(** The characters of a string literal after its opening quote, and what
    follows the closing one. *)
Fixpoint parse_chars (s : string) : option (string * string) :=
  match s with
  | EmptyString => None
  | String c r =>
      if Ascii.eqb c dquote then Some (EmptyString, r)
      else if Ascii.eqb c backslash then
        match r with
        | String e r' =>
            if Ascii.eqb e dquote || Ascii.eqb e backslash then
              match parse_chars r' with
              | Some (t, rest) => Some (String e t, rest)
              | None => None
              end
            else None
        | EmptyString => None
        end
      else match parse_chars r with
           | Some (t, rest) => Some (String c t, rest)
           | None => None
           end
  end.

(** The digits at the head of [s], accumulated, and the rest. *)
Fixpoint parse_digits (s : string) (acc : option Z) : option Z * string :=
  match s with
  | EmptyString => (acc, s)
  | String c r =>
      match JsString.digit_val c with
      | Some d => parse_digits r (Some (10 * default 0 acc + d))
      | None => (acc, s)
      end
  end.

Definition parse_number (s : string) : option (json * string) :=
  match s with
  | String "-"%char r =>
      match parse_digits r None with
      | (Some n, rest) => Some (JNum (- n), rest)
      | (None, _) => None
      end
  | _ =>
      match parse_digits s None with
      | (Some n, rest) => Some (JNum n, rest)
      | (None, _) => None
      end
  end.

Fixpoint parse_value (fuel : nat) (s : string) {struct fuel}
  : option (json * string) :=
  match fuel with
  | O => None
  | S f =>
      match skip_ws s with
      | String "n" (String "u" (String "l" (String "l" r))) => Some (JNull, r)
      | String "t" (String "r" (String "u" (String "e" r))) =>
          Some (JBool true, r)
      | String "f" (String "a" (String "l" (String "s" (String "e" r)))) =>
          Some (JBool false, r)
      | String "[" r =>
          match skip_ws r with
          | String "]" r' => Some (JArr [], r')
          | _ => match parse_elems f r with
                 | Some (vs, rest) => Some (JArr vs, rest)
                 | None => None
                 end
          end
      | String "{" r =>
          match skip_ws r with
          | String "}" r' => Some (JObj [], r')
          | _ => match parse_members f r with
                 | Some (kvs, rest) => Some (JObj kvs, rest)
                 | None => None
                 end
          end
      | String c r as t =>
          if Ascii.eqb c dquote then
            match parse_chars r with
            | Some (str, rest) => Some (JStr str, rest)
            | None => None
            end
          else parse_number t
      | EmptyString => None
      end
  end
with parse_elems (fuel : nat) (s : string) {struct fuel}
  : option (list json * string) :=
  match fuel with
  | O => None
  | S f =>
      match parse_value f s with
      | Some (v, r) =>
          match skip_ws r with
          | String "," r' =>
              match parse_elems f r' with
              | Some (vs, rest) => Some (v :: vs, rest)
              | None => None
              end
          | String "]" r' => Some ([v], r')
          | _ => None
          end
      | None => None
      end
  end
with parse_members (fuel : nat) (s : string) {struct fuel}
  : option (list (string * json) * string) :=
  match fuel with
  | O => None
  | S f =>
      match skip_ws s with
      | String c r =>
          if Ascii.eqb c dquote then
            match parse_chars r with
            | Some (k, r1) =>
                match skip_ws r1 with
                | String ":" r2 =>
                    match parse_value f r2 with
                    | Some (v, r3) =>
                        match skip_ws r3 with
                        | String "," r4 =>
                            match parse_members f r4 with
                            | Some (kvs, rest) => Some ((k, v) :: kvs, rest)
                            | None => None
                            end
                        | String "}" r4 => Some ([(k, v)], r4)
                        | _ => None
                        end
                    | None => None
                    end
                | _ => None
                end
            | None => None
            end
          else None
      | EmptyString => None
      end
  end.

(** The whole text must be one value. *)
Definition parse (s : string) : option json :=
  match parse_value (2 * String.length s + 2) s with
  | Some (v, rest) =>
      match skip_ws rest with EmptyString => Some v | _ => None end
  | None => None
  end.

(** Zero-padded decimal of a natural number below [10 ^ width]. *)
Fixpoint pad (width : nat) (n : Z) : string :=
  match width with
  | O => EmptyString
  | S w => pad w (n / 10) +:+
           String (ascii_of_nat (48 + Z.to_nat (n mod 10))) EmptyString
  end.

(** ISO-8601 text of a number of seconds since the epoch, years 0 to
    9999 (days to civil date by the usual era arithmetic). *)
Definition iso (t : Z) : string :=
  let days := t / 86400 in
  let secs := t mod 86400 in
  let z := days + 719468 in
  let era := z / 146097 in
  let doe := z - era * 146097 in
  let yoe := (doe - doe / 1460 + doe / 36524 - doe / 146096) / 365 in
  let doy := doe - (365 * yoe + yoe / 4 - yoe / 100) in
  let mp := (5 * doy + 2) / 153 in
  let d := doy - (153 * mp + 2) / 5 + 1 in
  let m := if mp <? 10 then mp + 3 else mp - 9 in
  let y := yoe + era * 400 + (if m <=? 2 then 1 else 0) in
  pad 4 y +:+ "-" +:+ pad 2 m +:+ "-" +:+ pad 2 d +:+ "T" +:+
  pad 2 (secs / 3600) +:+ ":" +:+ pad 2 (secs / 60 mod 60) +:+ ":" +:+
  pad 2 (secs mod 60) +:+ ".000Z".

End Json.

#[export] Instance concrete_codec : JsonCodec := {
  JSON_parse := Json.parse;
  JSON_stringify := Json.stringify;
  Date_toJSON := Json.iso
}.

(** ** Vocabulary of the statements *)

(** [if (data)]: a cached value counts when it is a non-empty string. *)
Definition truthy_data (d : option string) : bool :=
  match d with Some s => JsString.truthy s | None => false end.

(** What the store answers to a query of [fetchAndCache], and the call it
    is. *)
Definition run_query (m : Model) (q : PrismaQuery) (w : World) : QueryResult :=
  match q with
  | FindUnique id => OneRow (find_by_id id (table m w))
  | FindMany wh => ManyRows (List.filter (matches wh) (table m w))
  end.

Definition query_call (m : Model) (q : PrismaQuery) : Call :=
  match q with
  | FindUnique id => PrismaFindUnique m id
  | FindMany wh => PrismaFindMany m wh None
  end.

(** The calls that reached the record store, and those that reached the
    cache. *)
Definition store_calls (w : World) : list Call :=
  List.filter is_store_call (calls w).

Definition redis_calls (w : World) : list Call :=
  List.filter is_redis_call (calls w).

(** The same request issued again and again, each time after the given
    delay. *)
Fixpoint replay (h : M Response) (delays : list Z) (w : World)
  : list (Outcome Response) * World :=
  match delays with
  | [] => ([], w)
  | d :: ds =>
      let (r, w1) := h (advance d w) in
      let (rs, w2) := replay h ds w1 in
      (r :: rs, w2)
  end.

(** ** Sample data *)

Module Sample.

Definition cat : Asset :=
  mkAsset "p1" "/uploads/1735227498-cat.png" ["cat"; "pet"] None
          EmptyString 1735227498 1735227498.

Definition dog : Asset :=
  mkAsset "p2" "/uploads/1735227499-dog.png" ["dog"; "pet"] None
          EmptyString 1735227499 1735227499.

Definition clip : Asset :=
  mkAsset "v1" "/uploads/1735227500-clip.mp4" ["pet"] None
          EmptyString 1735227500 1735227500.

(** A healthy service with an empty cache, two photos and one video. *)
Definition world0 : World :=
  mkWorld 1735230000 Healthy ∅ [cat; dog] [clip] [].

(** [n] rows [v1 .. vn], all tagged [pet]. *)
Fixpoint rows (n : nat) : list Asset :=
  match n with
  | O => []
  | S k => rows k ++ [mkAsset ("v" +:+ decimal (Z.of_nat n)) "/uploads/clip.mp4"
                              ["pet"] None EmptyString 1735227500 1735227500]
  end.

End Sample.

(** The cache backend changing state between two requests. *)
Definition set_health (h : Health) (w : World) : World :=
  mkWorld (clock w) h (cache w) (photoTable w) (videoTable w) (calls w).

Module SampleListing.


End SampleListing.

Module SampleUpload.

(** A service holding [n] photos and [k] videos. *)
Definition holding (n k : nat) : World :=
  mkWorld 1735230000 Healthy ∅ (Sample.rows n) (Sample.rows k) [].

(** An upload of [new.png] tagged [pet], with no identifier supplied. *)
Definition request : UploadRequest :=
  mkUpload (Some "1735230000-new.png")
           (Some (Json.stringify (JArr [JStr "pet"])))
           None.

End SampleUpload.

(** ** The route table

    The routes of server.js in the order they are registered.  A request
    is taken as the route handlers see it: past the body parser, the rate
    limiter and CORS, and on the upload routes past multer, which leaves
    the stored file name and the text fields.  A path is the list of its
    segments, the texts between the slashes: [/v1/videos/] is
    [["v1"; "videos"; ""]].  The router is Express with its defaults: the
    letters of a route path match in either case, and one slash at the end
    of the path is ignored.  GET /health and everything under /uploads
    (the static files) are not modelled. *)

Module Router.

Inductive Method : Type := GET | POST | PUT | PATCH | DELETE.

Definition method_eqb (a b : Method) : bool :=
  match a, b with
  | GET, GET | POST, POST | PUT, PUT | PATCH, PATCH | DELETE, DELETE => true
  | _, _ => false
  end.

Record HttpRequest : Type := mkRequest {
  method : Method;
  path : list string;       (* the segments of the path *)
  query_tags : JsValue;     (* req.query.tags *)
  query_list : ListQuery;   (* req.query.page, .limit, .tag *)
  upload : UploadRequest;   (* req.file, req.body.tags, req.body.imageId *)
  cuid : string             (* the identifier the store would generate *)
}.

(** A segment of a route path: a literal, or the parameter [:id]. *)
Inductive Seg : Type := Lit (s : string) | Param.

(** A letter A-Z as its lower-case letter. *)
Definition lower_char (c : ascii) : ascii :=
  let n := nat_of_ascii c in
  if ((65 <=? n) && (n <=? 90))%nat then ascii_of_nat (n + 32) else c.

Fixpoint lower (s : string) : string :=
  match s with
  | EmptyString => EmptyString
  | String c r => String (lower_char c) (lower r)
  end.

(** Matching a path against a route path; the result is [req.params.id]
    ([undefined] on a route without parameter).  A literal matches in
    either case, a parameter takes one non-empty segment, and the path may
    end with one more slash. *)
Fixpoint match_path (pat : list Seg) (p : list string) (id : JsValue)
  : option JsValue :=
  match pat, p with
  | [], [] | [], [EmptyString] => Some id
  | Lit s :: pat', x :: p' =>
      if String.eqb (lower s) (lower x) then match_path pat' p' id else None
  | Param :: pat', x :: p' =>
      if JsString.truthy x then match_path pat' p' (VString x) else None
  | _, _ => None
  end.

Record Route : Type := mkRoute {
  r_method : Method;
  r_path : list Seg;
  r_handler : JsValue -> HttpRequest -> M Response
}.

(** The catch-all of lines 499-501. *)
Definition routeNotFound : M Response :=
  ret (res_status_json 404 (error_body "Route not found")).

(** Express walks the routes in order; each handler here answers without
    calling [next()], so the first route that matches is the one that
    runs. *)
Fixpoint dispatch_on (rs : list Route) (req : HttpRequest) : M Response :=
  match rs with
  | [] => routeNotFound
  | r :: rest =>
      if method_eqb (r_method r) (method req) then
        match match_path (r_path r) (path req) VUndefined with
        | Some id => r_handler r id req
        | None => dispatch_on rest req
        end
      else dispatch_on rest req
  end.

(** GET /health, and the paths under the mount point /uploads. *)
Definition not_modelled (req : HttpRequest) : bool :=
  (method_eqb (method req) GET
   && bool_decide (is_Some (match_path [Lit "health"] (path req) VUndefined)))
  || match path req with
     | x :: _ => String.eqb (lower x) "uploads"
     | [] => false
     end.

Section Routes.

Context {codec : JsonCodec}.

(** [app.get], [app.post] and [app.delete] of server.js, lines 152-496. *)
Definition routes : list Route :=
  [ mkRoute GET [Lit "v1"; Lit "photos"; Param]
            (fun id _ => getPhotoById id);
    mkRoute GET [Lit "v1"; Lit "photos"]
            (fun _ req => searchPhotosByTags (query_tags req));
    mkRoute GET [Lit "v1"; Lit "videos"]
            (fun _ _ => listVideos);
    mkRoute POST [Lit "v1"; Lit "photos"; Lit "upload"]
            (fun _ req => uploadPhoto (upload req) (cuid req));
    mkRoute DELETE [Lit "v1"; Lit "videos"; Param]
            (fun id _ => deleteVideoFirst id);
    mkRoute GET [Lit "v1"; Lit "videos"]
            (fun _ req => searchVideosByTags (query_tags req));
    mkRoute DELETE [Lit "v1"; Lit "photos"; Param]
            (fun id _ => deletePhoto id);
    mkRoute POST [Lit "v1"; Lit "videos"; Lit "upload"]
            (fun _ req => uploadVideo (upload req) (cuid req));
    mkRoute GET [Lit "v1"; Lit "videos"]
            (fun _ req => listVideosPaged (query_list req));
    mkRoute DELETE [Lit "v1"; Lit "videos"; Param]
            (fun id _ => deleteVideo id) ].

(** The routes that can run: [routes] without its sixth, ninth and tenth
    entries, which repeat an earlier method and path. *)
Definition live_routes : list Route :=
  [ mkRoute GET [Lit "v1"; Lit "photos"; Param]
            (fun id _ => getPhotoById id);
    mkRoute GET [Lit "v1"; Lit "photos"]
            (fun _ req => searchPhotosByTags (query_tags req));
    mkRoute GET [Lit "v1"; Lit "videos"]
            (fun _ _ => listVideos);
    mkRoute POST [Lit "v1"; Lit "photos"; Lit "upload"]
            (fun _ req => uploadPhoto (upload req) (cuid req));
    mkRoute DELETE [Lit "v1"; Lit "videos"; Param]
            (fun id _ => deleteVideoFirst id);
    mkRoute DELETE [Lit "v1"; Lit "photos"; Param]
            (fun id _ => deletePhoto id);
    mkRoute POST [Lit "v1"; Lit "videos"; Lit "upload"]
            (fun _ req => uploadVideo (upload req) (cuid req)) ].

(** The handler a request reaches; [None] for the requests that are not
    modelled. *)
Definition dispatch (req : HttpRequest) : option (M Response) :=
  if not_modelled req then None else Some (dispatch_on routes req).

(** A sequence of requests served one after the other, each after the
    given delay.  The requests that are not modelled (health check,
    static files) leave the cache and the tables as they are. *)
Fixpoint serve (reqs : list (Z * HttpRequest)) (w : World) : World :=
  match reqs with
  | [] => w
  | (d, req) :: rest =>
      match dispatch req with
      | Some h => serve rest (snd (h (advance d w)))
      | None => serve rest (advance d w)
      end
  end.

End Routes.

End Router.

(** ** What a request may do to the world *)

(** The table after a request: as it was, one new row at the end (under
    the ceiling [cap], with an identifier no row had), or one row
    rewritten by the soft delete. *)
Definition TableStep (cap : nat) (now : Z) (t t' : list Asset) : Prop :=
  t' = t
  \/ (exists a, t' = t ++ [a] /\ find_by_id (aid a) t = None
                /\ (length t < cap)%nat /\ deletedAt a = None)
  \/ (exists pre a post, t = pre ++ a :: post
                         /\ find_by_id (aid a) pre = None
                         /\ t' = pre ++ mark_deleted now now a :: post).

Record WorldStep (w w' : World) : Prop := mkWorldStep {
  step_clock : clock w' = clock w;
  step_health : health w' = health w;
  step_cache : cache w' = cache w
               \/ exists k v, cache w' = <[k := (v, clock w + 3600)]> (cache w);
  step_photos : TableStep 50 (clock w) (photoTable w) (photoTable w');
  step_videos : TableStep 20 (clock w) (videoTable w) (videoTable w')
}.

(** The handler answers, with one of the given statuses. *)
Definition Answers (codes : list Z) (h : M Response) : Prop :=
  forall w, exists r w', h w = (Ret r, w') /\ In (status r) codes.


(** What a step of a handler body yields: a value satisfying [P], or an
    error that carries no status of its own. *)
Definition Yields {A} (P : A -> Prop) (m : M A) : Prop :=
  forall w, match m w with
            | (Ret a, _) => P a
            | (Throw e, _) => err_status e = None
            end.

Module SampleRun.

Definition request (m : Router.Method) (p : list string) : Router.HttpRequest :=
  Router.mkRequest m p VUndefined (mkListQuery None None None)
                   (mkUpload None None None) "cnew".

(** Look photo [p1] up, delete it, upload a photo, search the tag [pet],
    delete [p1] again. *)
Definition requests : list (Z * Router.HttpRequest) :=
  [ (0, request Router.GET ["v1"; "photos"; "p1"]);
    (10, request Router.DELETE ["v1"; "photos"; "p1"]);
    (5, Router.mkRequest Router.POST ["v1"; "photos"; "upload"] VUndefined
          (mkListQuery None None None) SampleUpload.request "cnew");
    (10, Router.mkRequest Router.GET ["v1"; "photos"] (VString "pet")
           (mkListQuery None None None) (mkUpload None None None) "c");
    (3600, request Router.DELETE ["v1"; "photos"; "p1"]) ].

End SampleRun.

(** A request that left the clock, the cache backend and every cache
    entry as they were. *)
Definition CacheKept (w w' : World) : Prop :=
  clock w' = clock w /\ health w' = health w /\ cache w' = cache w.

(** ** The stored file name

    [filename] of the multer storage, lines 59-62:
    [`${Date.now()}-${Math.round(Math.random() * 1e9)}-${file.originalname}`],
    as a function of the clock in milliseconds, of the rounded random
    number and of the original name. *)
Definition uniqueSuffix (now rnd : Z) : string :=
  decimal now +:+ "-" +:+ decimal rnd.

Definition storedFilename (now rnd : Z) (originalname : string) : string :=
  uniqueSuffix now rnd +:+ "-" +:+ originalname.

(** [`/uploads/${file.filename}`], lines 261 and 406. *)
Definition uploadUrl (filename : string) : string := "/uploads/" +:+ filename.

(** ** Vocabulary of the paged listing *)


(** The matching rows of the paged listing, written out: no [tag], or an
    empty one, selects every row; a [tag] selects the rows that carry it,
    trimmed, among their tags. *)
Definition rows_tagged (tag : option string) (rows : list Asset) : list Asset :=
  match tag with
  | Some (String _ _ as t) =>
      List.filter (fun a => existsb (String.eqb (JsString.trim t)) (tags a)) rows
  | Some EmptyString | None => rows
  end.

(** * Evaluation on concrete values *)

Example split_ab : JsString.split JsString.comma "b, a" = ["b"; " a"].
Proof. reflexivity. Qed.

Example split_empty : JsString.split JsString.comma "" = [""].
Proof. reflexivity. Qed.

Example trim_ab : JsString.trim "  a b " = "a b".
Proof. reflexivity. Qed.

Example parseInt_ex :
  JsString.parseInt " 25px" = Some 25 /\ JsString.parseInt "abc" = None
  /\ JsString.parseInt "-3" = Some (-3) /\ JsString.parseInt "" = None.
Proof. repeat split; reflexivity. Qed.

(** Beyond [2 ^ 53] the digits are read as the nearest double. *)
Example parseInt_rounds :
  JsString.parseInt "99999999999999999999" = Some 100000000000000000000
  /\ JsString.parseInt "9007199254740993" = Some 9007199254740992
  /\ JsString.parseInt "9007199254740995" = Some 9007199254740996
  /\ JsString.parseInt "-9007199254740993" = Some (-9007199254740992)
  /\ JsString.parseInt "9007199254740991" = Some 9007199254740991.
Proof. vm_compute. repeat split. Qed.

(** The store refuses a [take] that does not fit 64 bits, and orders the
    rows of a page by id. *)
Example page_rows_ex :
  page_rows (Some (Some 0, Some 100000000000000000000)) (Sample.rows 3)
    = Throw prisma_validation_error
  /\ map aid (order_by_id (Sample.rows 12))
     = ["v1"; "v10"; "v11"; "v12"; "v2"; "v3"; "v4"; "v5"; "v6"; "v7"; "v8"; "v9"].
Proof. vm_compute. split; reflexivity. Qed.

(** Route paths match in either case and with one slash more at the end;
    a parameter needs a non-empty segment. *)
Example match_path_ex :
  Router.match_path [Router.Lit "v1"; Router.Lit "videos"] ["V1"; "Videos"; ""]
                    VUndefined = Some VUndefined
  /\ Router.match_path [Router.Lit "v1"; Router.Lit "photos"; Router.Param]
                       ["v1"; "photos"; "Ab"; ""] VUndefined = Some (VString "Ab")
  /\ Router.match_path [Router.Lit "v1"; Router.Lit "photos"; Router.Param]
                       ["v1"; "photos"; ""] VUndefined = None
  /\ Router.match_path [Router.Lit "v1"; Router.Lit "videos"]
                       ["v1"; "videos"; ""; ""] VUndefined = None.
Proof. repeat split. Qed.

Example as_string_list_ex :
  as_string_list (JArr [JStr "a"; JStr "b"]) = Some ["a"; "b"]
  /\ as_string_list (JObj [("set", JArr [JStr "a"; JStr "b"])]) = Some ["a"; "b"]
  /\ as_string_list (JStr "a") = None
  /\ as_string_list (JArr [JStr "a"; JNum 1]) = None.
Proof. repeat split. Qed.

Example iso_ex : Json.iso 1735227498 = "2024-12-26T15:38:18.000Z".
Proof. vm_compute. reflexivity. Qed.

Example stringify_ex :
  Json.stringify (JObj [("id", JStr "p1"); ("tags", JArr [JStr "a"; JStr "b"]);
                        ("deletedAt", JNull); ("n", JNum (-12))])
  = "{" +:+ Json.quote "id" +:+ ":" +:+ Json.quote "p1" +:+ ","
        +:+ Json.quote "tags" +:+ ":[" +:+ Json.quote "a" +:+ ","
        +:+ Json.quote "b" +:+ "]," +:+ Json.quote "deletedAt" +:+ ":null,"
        +:+ Json.quote "n" +:+ ":-12}".
Proof. vm_compute. reflexivity. Qed.

Example parse_stringify_ex :
  let v := JObj [("id", JStr "p1"); ("tags", JArr [JStr "a"; JStr "b"]);
                 ("deletedAt", JNull); ("ok", JBool true); ("n", JNum 7);
                 ("o", JObj []); ("l", JArr [])] in
  Json.parse (Json.stringify v) = Some v.
Proof. vm_compute. reflexivity. Qed.

Example parse_bad : Json.parse "[1,2" = None /\ Json.parse "a,b" = None.
Proof. split; vm_compute; reflexivity. Qed.

(** * Strings: splitting and joining on the comma *)

Section SplitJoin.

Import JsString.

Lemma split_nonempty sep s : split sep s <> [].
Proof.
  destruct s as [|c r]; simpl; [discriminate|].
  destruct (Ascii.eqb c sep); [discriminate|].
  destruct (split sep r); discriminate.
Qed.

Lemma split_elems_free sep s :
  Forall (fun x => has_char sep x = false) (split sep s).
Proof.
  induction s as [|c r IH]; simpl.
  - repeat constructor.
  - destruct (Ascii.eqb c sep) eqn:E.
    + constructor; [reflexivity | exact IH].
    + destruct (split sep r) as [|h t].
      * constructor; [simpl; rewrite E; reflexivity | constructor].
      * inversion IH as [|? ? Hh Ht]; subst.
        constructor; [simpl; rewrite E; exact Hh | exact Ht].
Qed.

Lemma trimStart_free c s : has_char c s = false -> has_char c (trimStart s) = false.
Proof.
  induction s as [|d r IH]; simpl; [reflexivity|].
  intros H. apply orb_false_iff in H as [Hd Hr].
  destruct (is_ws d); [auto|]. simpl. rewrite Hd. exact Hr.
Qed.

Lemma trimEnd_free c s : has_char c s = false -> has_char c (trimEnd s) = false.
Proof.
  induction s as [|d r IH]; simpl; [reflexivity|].
  intros H. apply orb_false_iff in H as [Hd Hr].
  specialize (IH Hr).
  destruct (trimEnd r) as [|e r'].
  - destruct (is_ws d); simpl; [reflexivity|]. rewrite Hd. reflexivity.
  - simpl. rewrite Hd. exact IH.
Qed.

Lemma trim_free c s : has_char c s = false -> has_char c (trim s) = false.
Proof. intros H. apply trimEnd_free, trimStart_free, H. Qed.

Lemma split_free sep x : has_char sep x = false -> split sep x = [x].
Proof.
  induction x as [|c r IH]; simpl; [reflexivity|].
  intros H. apply orb_false_iff in H as [Hc Hr].
  rewrite Hc, (IH Hr). reflexivity.
Qed.

Lemma split_app sep x s :
  has_char sep x = false ->
  split sep (x +:+ String sep s) = x :: split sep s.
Proof.
  induction x as [|c r IH]; simpl.
  - intros _. rewrite Ascii.eqb_refl. reflexivity.
  - intros H. apply orb_false_iff in H as [Hc Hr].
    rewrite Hc, (IH Hr). reflexivity.
Qed.

(** Splitting undoes joining, for a non-empty list of comma-free items. *)
Lemma split_join l :
  l <> [] -> Forall (fun x => has_char comma x = false) l ->
  split comma (join "," l) = l.
Proof.
  induction l as [|x l IH]; [congruence|].
  intros _ Hall. inversion Hall as [|? ? Hx Hl]; subst.
  destruct l as [|y l].
  - simpl. apply split_free, Hx.
  - change (join "," (x :: y :: l)) with (x +:+ String comma (join "," (y :: l))).
    rewrite (split_app _ _ _ Hx), IH; [reflexivity | discriminate | exact Hl].
Qed.

Lemma tag_list_nonempty tags : tag_list tags <> [].
Proof.
  unfold tag_list. pose proof (split_nonempty comma tags) as H.
  destruct (split comma tags); [congruence | discriminate].
Qed.

Lemma tag_list_free tags :
  Forall (fun x => has_char comma x = false) (tag_list tags).
Proof.
  unfold tag_list. pose proof (split_elems_free comma tags) as H.
  induction H as [|x l Hx Hl IH]; simpl; constructor; [apply trim_free, Hx | exact IH].
Qed.

(** The joined tag list determines the tag list. *)
Lemma join_tag_list_inj t1 t2 :
  join "," (tag_list t1) = join "," (tag_list t2) -> tag_list t1 = tag_list t2.
Proof.
  intros H.
  rewrite <- (split_join (tag_list t1)), <- (split_join (tag_list t2));
    auto using tag_list_nonempty, tag_list_free.
  rewrite H. reflexivity.
Qed.

End SplitJoin.

(** C4 (as amended): the cache key of a tag search is the request's tag
    list in the order given, each tag trimmed, joined by a comma under the
    kind's prefix, neither sorted nor de-duplicated; two tag queries derive
    the same key exactly when their trimmed tag lists are equal as lists. *)
Theorem tags_key_follows_request_order :
  (forall tags, photosTagsKey tags
                = "photos:tags:" +:+ JsString.join "," (map JsString.trim (JsString.split JsString.comma tags)))
  /\ (forall tags, videosTagsKey tags
                = "videos:tags:" +:+ JsString.join "," (map JsString.trim (JsString.split JsString.comma tags)))
  /\ (forall t1 t2, photosTagsKey t1 = photosTagsKey t2 <-> tag_list t1 = tag_list t2)
  /\ (forall t1 t2, videosTagsKey t1 = videosTagsKey t2 <-> tag_list t1 = tag_list t2).
Proof.
  repeat split; try reflexivity.
  - unfold photosTagsKey. simpl. intros H. injection H as H.
    apply join_tag_list_inj, H.
  - unfold photosTagsKey. intros ->. reflexivity.
  - unfold videosTagsKey. simpl. intros H. injection H as H.
    apply join_tag_list_inj, H.
  - unfold videosTagsKey. intros ->. reflexivity.
Qed.

(** C4 (as stated) fails: [b,a] and [a,b] hold the same set of tags and
    derive different keys. *)
Lemma tags_key_not_order_independent :
  ~ (forall t1 t2 : string,
       (forall x, In x (tag_list t1) <-> In x (tag_list t2)) ->
       photosTagsKey t1 = photosTagsKey t2).
Proof.
  intros H. specialize (H "b,a" "a,b").
  assert (Hset : forall x, In x (tag_list "b,a") <-> In x (tag_list "a,b")).
  { intros x. simpl. tauto. }
  specialize (H Hset). vm_compute in H. discriminate H.
Qed.

(** * The read-through path *)

Section ReadThrough.

Context {codec : JsonCodec}.

Lemma prisma_run_eq m q w :
  prisma_run m q w = (Ret (run_query m q w), record_call (query_call m q) w).
Proof. destruct q; reflexivity. Qed.

Lemma truthy_data_false d :
  truthy_data d = false -> d = None \/ d = Some EmptyString.
Proof. destruct d as [[|c r]|]; simpl; intros; auto; discriminate. Qed.

(** The backend does not answer: the error goes to the error handler. *)
Lemma fetch_unreachable m i k q w msg :
  health w = Unreachable msg ->
  fetchAndCache m i k q w
  = (Ret (errorHandler (redis_error msg)), record_call (RedisGet k) w).
Proof.
  intros H. unfold fetchAndCache, try_catch, bind, redis_get. rewrite H.
  reflexivity.
Qed.

Lemma fetch_hit m i k q w data :
  (forall msg, health w <> Unreachable msg) ->
  cache_lookup k w = Some data -> JsString.truthy data = true ->
  fetchAndCache m i k q w
  = (Ret (match JSON_parse data with
          | Some v => res_json v
          | None => errorHandler syntax_error
          end), record_call (RedisGet k) w).
Proof.
  intros Hh Hc Ht. unfold fetchAndCache, try_catch, bind, redis_get.
  rewrite Hc. destruct data as [|c r]; [discriminate|].
  unfold json_parse.
  destruct (health w) eqn:E; try (exfalso; eapply Hh; reflexivity);
    destruct (JSON_parse (String c r)); reflexivity.
Qed.

Lemma fetch_miss_none m i k q w :
  (forall msg, health w <> Unreachable msg) ->
  truthy_data (cache_lookup k w) = false ->
  no_result (run_query m q w) = true ->
  fetchAndCache m i k q w
  = (Ret (res_status_json 404 (error_body (model_name m +:+ " not found"))),
     record_call (query_call m q) (record_call (RedisGet k) w)).
Proof.
  intros Hh Hc Hn. unfold fetchAndCache, try_catch, bind, redis_get.
  assert (Hq : run_query m q (record_call (RedisGet k) w) = run_query m q w)
    by (destruct q, m; reflexivity).
  destruct (truthy_data_false _ Hc) as [-> | ->];
    (destruct (health w) eqn:E; try (exfalso; eapply Hh; reflexivity));
    rewrite prisma_run_eq, Hq, Hn; reflexivity.
Qed.

Lemma fetch_miss_some m i k q w :
  health w = Healthy ->
  truthy_data (cache_lookup k w) = false ->
  no_result (run_query m q w) = false ->
  let r := result_json (run_query m q w) in
  fetchAndCache m i k q w
  = (Ret (res_json r),
     set_cache (<[k := (JSON_stringify r, clock w + 3600)]> (cache w))
       (record_call (RedisSetEx k 3600 (JSON_stringify r))
          (record_call (query_call m q) (record_call (RedisGet k) w)))).
Proof.
  intros Hh Hc Hn r. unfold fetchAndCache, try_catch, bind, redis_get.
  assert (Hq : run_query m q (record_call (RedisGet k) w) = run_query m q w)
    by (destruct q, m; reflexivity).
  rewrite Hh.
  destruct (truthy_data_false _ Hc) as [-> | ->];
    rewrite prisma_run_eq, Hq, Hn; unfold redis_setEx; simpl; rewrite Hh;
    reflexivity.
Qed.

Lemma fetch_miss_readonly m i k q w msg :
  health w = ReadOnly msg ->
  truthy_data (cache_lookup k w) = false ->
  no_result (run_query m q w) = false ->
  let r := result_json (run_query m q w) in
  fetchAndCache m i k q w
  = (Ret (errorHandler (redis_error msg)),
     record_call (RedisSetEx k 3600 (JSON_stringify r))
       (record_call (query_call m q) (record_call (RedisGet k) w))).
Proof.
  intros Hh Hc Hn r. unfold fetchAndCache, try_catch, bind, redis_get.
  assert (Hq : run_query m q (record_call (RedisGet k) w) = run_query m q w)
    by (destruct q, m; reflexivity).
  rewrite Hh.
  destruct (truthy_data_false _ Hc) as [-> | ->];
    rewrite prisma_run_eq, Hq, Hn; unfold redis_setEx; simpl; rewrite Hh;
    reflexivity.
Qed.

(** [fetchAndCache] answers every request: its [catch] leaves no error
    behind. *)
Lemma fetch_returns m i k q w :
  exists r w', fetchAndCache m i k q w = (Ret r, w').
Proof.
  destruct (health w) as [| msg | msg] eqn:Hh.
  - destruct (truthy_data (cache_lookup k w)) eqn:Hc.
    + destruct (cache_lookup k w) as [data|] eqn:Hd; [|discriminate].
      rewrite (fetch_hit m i k q w data); eauto. intros ?; congruence.
    + destruct (no_result (run_query m q w)) eqn:Hn.
      * rewrite fetch_miss_none; eauto. intros ?; congruence.
      * rewrite fetch_miss_some; eauto.
  - destruct (truthy_data (cache_lookup k w)) eqn:Hc.
    + destruct (cache_lookup k w) as [data|] eqn:Hd; [|discriminate].
      rewrite (fetch_hit m i k q w data); eauto. intros ?; congruence.
    + destruct (no_result (run_query m q w)) eqn:Hn.
      * rewrite fetch_miss_none; eauto. intros ?; congruence.
      * rewrite (fetch_miss_readonly m i k q w msg); eauto.
  - rewrite (fetch_unreachable m i k q w msg); eauto.
Qed.

Lemma try_catch_returns {A} (body : M A) handler w r w' :
  body w = (Ret r, w') -> try_catch body handler w = (Ret r, w').
Proof. intros H. unfold try_catch. rewrite H. reflexivity. Qed.

Lemma getPhotoById_valid s w :
  JsString.truthy s = true ->
  getPhotoById (VString s) w
  = fetchAndCache photo s (photoIdKey s) (FindUnique s) w.
Proof.
  intros Hs. unfold getPhotoById. simpl. rewrite Hs. simpl.
  destruct (fetch_returns photo s (photoIdKey s) (FindUnique s) w)
    as (r & w' & E).
  rewrite E. apply try_catch_returns, E.
Qed.

End ReadThrough.

Section Replay.

Context {codec : JsonCodec}.

Lemma miss_after_delay k w d :
  0 <= d -> truthy_data (cache_lookup k w) = false ->
  truthy_data (cache_lookup k (advance d w)) = false.
Proof.
  unfold cache_lookup. simpl. intros Hd.
  destruct (cache w !! k) as [[v e]|]; [|reflexivity].
  destruct (clock w <? e) eqn:E1, (clock w + d <? e) eqn:E2; simpl; auto.
  apply Z.ltb_ge in E1. apply Z.ltb_lt in E2. lia.
Qed.

Lemma store_calls_record c w :
  store_calls (record_call c w)
  = store_calls w ++ (if is_store_call c then [c] else []).
Proof.
  unfold store_calls. simpl. rewrite List.filter_app. simpl.
  destruct (is_store_call c); reflexivity.
Qed.

Lemma is_store_query_call m q : is_store_call (query_call m q) = true.
Proof. destruct q; reflexivity. Qed.

(** A miss with no record leaves the world as it was, one store query
    later: the same request misses again, whatever the time between. *)
Lemma replay_miss_none m i k q delays : forall w,
  Forall (fun d => 0 <= d) delays ->
  (forall msg, health w <> Unreachable msg) ->
  truthy_data (cache_lookup k w) = false ->
  no_result (run_query m q w) = true ->
  let out := replay (fetchAndCache m i k q) delays w in
  fst out = repeat (Ret (res_status_json 404
                           (error_body (model_name m +:+ " not found"))))
                   (length delays)
  /\ store_calls (snd out)
     = store_calls w ++ repeat (query_call m q) (length delays)
  /\ cache (snd out) = cache w
  /\ table m (snd out) = table m w.
Proof.
  induction delays as [|d ds IH]; intros w Hall Hh Hc Hn.
  - simpl. rewrite app_nil_r. auto.
  - inversion Hall as [|? ? Hd Hds]; subst. simpl.
    assert (Hq : forall w', table m w' = table m w -> run_query m q w' = run_query m q w).
    { intros w' E. destruct q; simpl; rewrite E; reflexivity. }
    rewrite (fetch_miss_none m i k q (advance d w));
      auto using miss_after_delay;
      try (rewrite Hq; [exact Hn | destruct m; reflexivity]).
    set (w1 := record_call _ (record_call _ (advance d w))).
    assert (Ht1 : table m w1 = table m w) by (destruct m; reflexivity).
    specialize (IH w1 Hds).
    destruct (replay (fetchAndCache m i k q) ds w1) as [rs w2] eqn:E.
    simpl in IH |- *.
    destruct IH as (IH1 & IH2 & IH3 & IH4).
    + exact Hh.
    + change (cache_lookup k w1) with (cache_lookup k (advance d w)).
      auto using miss_after_delay.
    + rewrite Hq; auto.
    + rewrite IH1, IH2, IH3, IH4. repeat split; auto.
      unfold w1. rewrite !store_calls_record, is_store_query_call. simpl.
      rewrite app_nil_r, <- app_assoc. reflexivity.
Qed.

Lemma replay_ext (h1 h2 : M Response) delays :
  (forall w, h1 w = h2 w) -> forall w, replay h1 delays w = replay h2 delays w.
Proof.
  intros E. induction delays as [|d ds IH]; intros w; simpl; [reflexivity|].
  rewrite E. destruct (h2 (advance d w)) as [r w1]. rewrite IH. reflexivity.
Qed.

End Replay.



(** Video [v1] is in the store of the sample service, yet a lookup of it
    by id is answered 404 "Route not found", and neither the cache nor the
    store is asked: server.js has no GET /v1/videos/:id. *)
Lemma video_lookup_by_id_is_not_routed :
  let req := Router.mkRequest Router.GET ["v1"; "videos"; "v1"] VUndefined
               (mkListQuery None None None) (mkUpload None None None) "c" in
  find_by_id "v1" (videoTable Sample.world0) = Some Sample.clip
  /\ Router.dispatch req = Some (Router.dispatch_on Router.routes req)
  /\ Router.dispatch_on Router.routes req Sample.world0
     = (Ret (res_status_json 404 (error_body "Route not found")), Sample.world0)
  /\ calls (snd (Router.dispatch_on Router.routes req Sample.world0)) = [].
Proof. repeat split. Qed.

Section TagSearch.

Context {codec : JsonCodec}.

Lemma searchPhotosByTags_valid s w :
  JsString.truthy s = true ->
  searchPhotosByTags (VString s) w
  = fetchAndCache photo s (photosTagsKey s) (FindMany (WHasSome (tag_list s))) w.
Proof.
  intros Hs. unfold searchPhotosByTags. simpl. rewrite Hs. simpl.
  destruct (fetch_returns photo s (photosTagsKey s)
              (FindMany (WHasSome (tag_list s))) w) as (r & w' & E).
  rewrite E. apply try_catch_returns, E.
Qed.

Lemma searchVideosByTags_valid s w :
  JsString.truthy s = true ->
  searchVideosByTags (VString s) w
  = fetchAndCache video s (videosTagsKey s) (FindMany (WHasSome (tag_list s))) w.
Proof.
  intros Hs. unfold searchVideosByTags. simpl. rewrite Hs. simpl.
  destruct (fetch_returns video s (videosTagsKey s)
              (FindMany (WHasSome (tag_list s))) w) as (r & w' & E).
  rewrite E. apply try_catch_returns, E.
Qed.

End TagSearch.

(** C10: a tag search that misses the cache and finds no row in the store
    is answered NotFound (404), not an empty success, and writes nothing
    to the cache, so every repetition of it queries the store again. *)
Theorem empty_tag_search_is_not_found {codec : JsonCodec}
    (tags : string) (w : World)
    (Hvalid : JsString.truthy tags = true)
    (Hup : forall msg, health w <> Unreachable msg) :
  let wh := WHasSome (tag_list tags) in
  (truthy_data (cache_lookup (photosTagsKey tags) w) = false ->
   List.filter (matches wh) (photoTable w) = [] ->
   searchPhotosByTags (VString tags) w
   = (Ret (res_status_json 404 (error_body "photo not found")),
      record_call (PrismaFindMany photo wh None)
        (record_call (RedisGet (photosTagsKey tags)) w))
   /\ forall delays, Forall (fun d => 0 <= d) delays ->
        let out := replay (searchPhotosByTags (VString tags)) delays w in
        fst out = repeat (Ret (res_status_json 404 (error_body "photo not found")))
                         (length delays)
        /\ store_calls (snd out)
           = store_calls w ++ repeat (PrismaFindMany photo wh None) (length delays)
        /\ cache (snd out) = cache w)
  /\ (truthy_data (cache_lookup (videosTagsKey tags) w) = false ->
      List.filter (matches wh) (videoTable w) = [] ->
      searchVideosByTags (VString tags) w
      = (Ret (res_status_json 404 (error_body "video not found")),
         record_call (PrismaFindMany video wh None)
           (record_call (RedisGet (videosTagsKey tags)) w))
      /\ forall delays, Forall (fun d => 0 <= d) delays ->
           let out := replay (searchVideosByTags (VString tags)) delays w in
           fst out = repeat (Ret (res_status_json 404 (error_body "video not found")))
                            (length delays)
           /\ store_calls (snd out)
              = store_calls w ++ repeat (PrismaFindMany video wh None) (length delays)
           /\ cache (snd out) = cache w).
Proof.
  intros wh. split; intros Hc He.
  - assert (Hn : no_result (run_query photo (FindMany wh) w) = true)
      by (simpl; rewrite He; reflexivity).
    split.
    + rewrite searchPhotosByTags_valid by exact Hvalid.
      apply (fetch_miss_none photo tags _ (FindMany wh) w Hup Hc Hn).
    + intros delays Hd.
      rewrite (replay_ext _ _ delays (fun w0 => searchPhotosByTags_valid tags w0 Hvalid)).
      destruct (replay_miss_none photo tags (photosTagsKey tags) (FindMany wh)
                  delays w Hd Hup Hc Hn) as (H1 & H2 & H3 & _).
      auto.
  - assert (Hn : no_result (run_query video (FindMany wh) w) = true)
      by (simpl; rewrite He; reflexivity).
    split.
    + rewrite searchVideosByTags_valid by exact Hvalid.
      apply (fetch_miss_none video tags _ (FindMany wh) w Hup Hc Hn).
    + intros delays Hd.
      rewrite (replay_ext _ _ delays (fun w0 => searchVideosByTags_valid tags w0 Hvalid)).
      destruct (replay_miss_none video tags (videosTagsKey tags) (FindMany wh)
                  delays w Hd Hup Hc Hn) as (H1 & H2 & H3 & _).
      auto.
Qed.

(** No photo and no video of the sample service is tagged [bird]: the
    search is answered 404 three times in a row, each time from the
    store. *)
Lemma empty_tag_search_is_not_found_witness :
  fst (searchPhotosByTags (VString "bird") Sample.world0)
    = Ret (res_status_json 404 (error_body "photo not found"))
  /\ store_calls (snd (replay (searchPhotosByTags (VString "bird")) [0; 5; 7200]
                              Sample.world0))
     = repeat (PrismaFindMany photo (WHasSome ["bird"]) None) 3
  /\ fst (searchVideosByTags (VString "bird") Sample.world0)
     = Ret (res_status_json 404 (error_body "video not found")).
Proof.
  assert (Hup : forall msg, health Sample.world0 <> Unreachable msg)
    by (intros msg; discriminate).
  destruct (empty_tag_search_is_not_found "bird" Sample.world0 eq_refl Hup)
    as [Hp Hv].
  destruct (Hp eq_refl eq_refl) as [Hp1 Hp2].
  destruct (Hv eq_refl eq_refl) as [Hv1 _].
  split; [rewrite Hp1; reflexivity|].
  split; [|rewrite Hv1; reflexivity].
  destruct (Hp2 [0; 5; 7200]) as (_ & H & _).
  - repeat constructor; lia.
  - rewrite H. reflexivity.
Defined.

(** C5 (as stated) fails: with the cache unreachable, the lookup of a
    photo that is in the store is answered 500 with the cache client's
    error, and the store is never asked. *)
Lemma cache_outage_fails_the_request :
  let w := set_health (Unreachable "connect ECONNREFUSED") Sample.world0 in
  find_by_id "p1" (photoTable w) = Some Sample.cat
  /\ getPhotoById (VString "p1") w
     = (Ret (mkResponse 500 (error_body "connect ECONNREFUSED")),
        record_call (RedisGet "photos:id:p1") w)
  /\ fst (getPhotoById (VString "p1") w) <> Ret (res_json (asset_json Sample.cat))
  /\ store_calls (snd (getPhotoById (VString "p1") w)) = [].
Proof.
  intros w. repeat split; try reflexivity.
  vm_compute. discriminate.
Qed.

(** C5 (as amended): a failure of the cache is not bypassed.  When the
    cache get fails, the cached read operations (lookup by id, tag search
    on photos and on videos) answer through the error handler, status 500
    with the client's message, without querying the store; when only the
    cache set fails, after a miss that found rows, the store has been
    queried and the answer is that same error response; nothing is
    written to the cache either way. *)
Theorem cache_failure_reaches_error_handler {codec : JsonCodec}
    (s : string) (w : World) (msg : string)
    (Hvalid : JsString.truthy s = true) :
  let failure :=
    mkResponse 500 (error_body (if JsString.truthy msg then msg
                                else "Internal Server Error")) in
  (health w = Unreachable msg ->
     getPhotoById (VString s) w
       = (Ret failure, record_call (RedisGet (photoIdKey s)) w)
     /\ searchPhotosByTags (VString s) w
       = (Ret failure, record_call (RedisGet (photosTagsKey s)) w)
     /\ searchVideosByTags (VString s) w
       = (Ret failure, record_call (RedisGet (videosTagsKey s)) w))
  /\ (health w = ReadOnly msg ->
      forall m key q,
        truthy_data (cache_lookup key w) = false ->
        no_result (run_query m q w) = false ->
        fetchAndCache m s key q w
        = (Ret failure,
           record_call (RedisSetEx key 3600
                          (JSON_stringify (result_json (run_query m q w))))
             (record_call (query_call m q) (record_call (RedisGet key) w)))).
Proof.
  intros failure. split.
  - intros Hh.
    rewrite getPhotoById_valid, searchPhotosByTags_valid,
      searchVideosByTags_valid by exact Hvalid.
    rewrite !(fetch_unreachable _ _ _ _ w msg Hh). auto.
  - intros Hh m key q Hc Hn.
    apply (fetch_miss_readonly m s key q w msg Hh Hc Hn).
Qed.

(** The two failures on the sample service: unreachable, and refusing
    writes. *)
Lemma cache_failure_reaches_error_handler_witness :
  let down := set_health (Unreachable "connect ECONNREFUSED") Sample.world0 in
  let ro := set_health (ReadOnly "READONLY replica") Sample.world0 in
  fst (getPhotoById (VString "p1") down)
    = Ret (mkResponse 500 (error_body "connect ECONNREFUSED"))
  /\ fst (fetchAndCache photo "p1" (photoIdKey "p1") (FindUnique "p1") ro)
     = Ret (mkResponse 500 (error_body "READONLY replica")).
Proof.
  intros down ro. split.
  - destruct (cache_failure_reaches_error_handler "p1" down
                "connect ECONNREFUSED" eq_refl) as [H _].
    destruct (H eq_refl) as (-> & _). reflexivity.
  - destruct (cache_failure_reaches_error_handler "p1" ro
                "READONLY replica" eq_refl) as [_ H].
    rewrite (H eq_refl photo (photoIdKey "p1") (FindUnique "p1") eq_refl eq_refl).
    reflexivity.
Defined.

(** * Request validation *)

(** C8: an id or a tag query that is the empty string or not a string
    (null, undefined, an array, ...) is answered 400 by every handler that
    takes one, with the world left untouched: no call to the cache and no
    call to the store. *)
Theorem malformed_request_is_rejected_first {codec : JsonCodec}
    (v : JsValue) (w : World)
    (Hbad : v = VString EmptyString \/ is_string v = false) :
  getPhotoById v w
    = (Ret (res_status_json 400 (error_body "Invalid photo ID")), w)
  /\ searchPhotosByTags v w
     = (Ret (res_status_json 400 (error_body "Invalid tags")), w)
  /\ (exists msg, searchVideosByTags v w
                  = (Ret (res_status_json 400 (error_body msg)), w))
  /\ deletePhoto v w
     = (Ret (res_status_json 400 (error_body "Invalid photo ID")), w)
  /\ deleteVideoFirst v w
     = (Ret (res_status_json 400 (error_body "Invalid video ID")), w)
  /\ deleteVideo v w
     = (Ret (res_status_json 400 (error_body "Invalid video ID")), w).
Proof.
  assert (Htest : negb (js_truthy v) || negb (is_string v) = true).
  { destruct Hbad as [-> | Hns]; [reflexivity|].
    rewrite Hns. apply orb_true_r. }
  unfold getPhotoById, searchPhotosByTags, searchVideosByTags, deletePhoto,
    deleteVideoFirst, deleteVideo, try_catch.
  rewrite Htest.
  repeat split; try reflexivity.
  destruct (js_truthy v) eqn:Ht; simpl.
  - simpl in Htest. rewrite Htest. eexists. reflexivity.
  - eexists. reflexivity.
Qed.

(** [getById("")], [getById(null)] and [listByTags("")] on the sample
    service. *)
Lemma malformed_request_is_rejected_first_witness :
  getPhotoById (VString EmptyString) Sample.world0
    = (Ret (res_status_json 400 (error_body "Invalid photo ID")), Sample.world0)
  /\ getPhotoById VNull Sample.world0
     = (Ret (res_status_json 400 (error_body "Invalid photo ID")), Sample.world0)
  /\ searchPhotosByTags (VString EmptyString) Sample.world0
     = (Ret (res_status_json 400 (error_body "Invalid tags")), Sample.world0)
  /\ calls (snd (searchPhotosByTags (VArray ["a"; "b"]) Sample.world0)) = [].
Proof.
  pose proof (malformed_request_is_rejected_first (VString EmptyString)
                Sample.world0 (or_introl eq_refl)) as (H1 & H2 & _).
  pose proof (malformed_request_is_rejected_first VNull
                Sample.world0 (or_intror eq_refl)) as (H3 & _).
  pose proof (malformed_request_is_rejected_first (VArray ["a"; "b"])
                Sample.world0 (or_intror eq_refl)) as (_ & H4 & _).
  rewrite H4. auto.
Defined.

(** * Soft delete *)

Section SoftDelete.

Context {codec : JsonCodec}.

Lemma update_row_missing id f t :
  find_by_id id t = None -> update_row id f t = None.
Proof.
  unfold find_by_id. induction t as [|a r IH]; simpl; [reflexivity|].
  destruct (String.eqb (aid a) id); [discriminate|].
  intros H. rewrite (IH H). reflexivity.
Qed.

Lemma update_row_found id f t a :
  find_by_id id t = Some a ->
  exists pre post,
    t = pre ++ a :: post /\ find_by_id id pre = None
    /\ update_row id f t = Some (f a, pre ++ f a :: post).
Proof.
  unfold find_by_id. induction t as [|b r IH]; simpl; [discriminate|].
  destruct (String.eqb (aid b) id) eqn:E.
  - intros [= ->]. exists [], r. auto.
  - intros H. destruct (IH H) as (pre & post & -> & Hpre & Hu).
    exists (b :: pre), post. simpl. rewrite E, Hu. auto.
Qed.

Lemma prisma_update_missing m id d w :
  find_by_id id (table m w) = None ->
  prisma_update m id d w
  = (Throw prisma_not_found_error, record_call (PrismaUpdate m id) w).
Proof.
  intros H. unfold prisma_update. rewrite (update_row_missing _ _ _ H).
  reflexivity.
Qed.

Lemma prisma_update_found m id d w a :
  find_by_id id (table m w) = Some a ->
  exists pre post,
    table m w = pre ++ a :: post /\ find_by_id id pre = None
    /\ prisma_update m id d w
       = (Ret (mark_deleted d (clock w) a),
          set_table m (pre ++ mark_deleted d (clock w) a :: post)
            (record_call (PrismaUpdate m id) w)).
Proof.
  intros H.
  destruct (update_row_found id (mark_deleted d (clock w)) _ a H)
    as (pre & post & Ht & Hpre & Hu).
  exists pre, post. unfold prisma_update. rewrite Hu. auto.
Qed.

Lemma deletePhoto_found s w a :
  JsString.truthy s = true ->
  find_by_id s (photoTable w) = Some a ->
  exists pre post,
    photoTable w = pre ++ a :: post /\ find_by_id s pre = None
    /\ deletePhoto (VString s) w
       = (Ret (res_json (asset_json (mark_deleted (clock w) (clock w) a))),
          set_table photo (pre ++ mark_deleted (clock w) (clock w) a :: post)
            (record_call (PrismaUpdate photo s) w)).
Proof.
  intros Hs H.
  destruct (prisma_update_found photo s (clock w) w a H)
    as (pre & post & Ht & Hpre & Hu).
  exists pre, post.
  unfold deletePhoto, try_catch, bind, new_Date. simpl. rewrite Hs. simpl.
  rewrite Hu. auto.
Qed.

End SoftDelete.

(** C9: for an existing record a soft delete rewrites that one row in
    place, setting [deletedAt] (and refreshing [updatedAt]) to the time of
    the request; [id], [url], [tags], [title] and [createdAt] are kept,
    the row stays in the table at its position and every other row is
    kept as it is; for an id with no record the answer is NotFound (404)
    and no row changes. *)
Theorem soft_delete_frame {codec : JsonCodec}
    (s : string) (w : World) (Hs : JsString.truthy s = true) :
  let tomb a := mkAsset (aid a) (url a) (tags a) (Some (clock w)) (title a)
                        (createdAt a) (clock w) in
  (find_by_id s (photoTable w) = None ->
     deletePhoto (VString s) w
     = (Ret (res_status_json 404 (error_body "Photo not found")),
        record_call (PrismaUpdate photo s) w))
  /\ (find_by_id s (videoTable w) = None ->
      deleteVideoFirst (VString s) w
      = (Ret (res_status_json 404 (error_body "Video not found")),
         record_call (PrismaUpdate video s) w)
      /\ deleteVideo (VString s) w
         = (Ret (res_status_json 404 (error_body "Video not found")),
            record_call (PrismaUpdate video s) w))
  /\ (forall a, find_by_id s (photoTable w) = Some a ->
      exists pre post,
        photoTable w = pre ++ a :: post /\ find_by_id s pre = None
        /\ deletePhoto (VString s) w
           = (Ret (res_json (asset_json (tomb a))),
              set_table photo (pre ++ tomb a :: post)
                (record_call (PrismaUpdate photo s) w)))
  /\ (forall a, find_by_id s (videoTable w) = Some a ->
      exists pre post,
        videoTable w = pre ++ a :: post /\ find_by_id s pre = None
        /\ deleteVideoFirst (VString s) w
           = (Ret (res_json (JObj [ ("message", JStr "Video deleted successfully");
                                    ("video", asset_json (tomb a)) ])),
              set_table video (pre ++ tomb a :: post)
                (record_call (PrismaUpdate video s) w))
        /\ deleteVideo (VString s) w
           = (Ret (res_json (asset_json (tomb a))),
              set_table video (pre ++ tomb a :: post)
                (record_call (PrismaUpdate video s) w))).
Proof.
  intros tomb.
  unfold deletePhoto, deleteVideoFirst, deleteVideo, try_catch, bind, new_Date.
  simpl. rewrite Hs. simpl.
  split; [|split; [|split]].
  - intros H. rewrite (prisma_update_missing photo s (clock w) w H). reflexivity.
  - intros H. rewrite (prisma_update_missing video s (clock w) w H). auto.
  - intros a H.
    destruct (prisma_update_found photo s (clock w) w a H)
      as (pre & post & Ht & Hpre & Hu).
    exists pre, post. rewrite Hu. auto.
  - intros a H.
    destruct (prisma_update_found video s (clock w) w a H)
      as (pre & post & Ht & Hpre & Hu).
    exists pre, post. rewrite Hu. auto.
Qed.

(** Deleting photo [p2] of the sample service, and the unknown [p9]. *)
Lemma soft_delete_frame_witness :
  let tomb := mkAsset "p2" "/uploads/1735227499-dog.png" ["dog"; "pet"]
                      (Some 1735230000) EmptyString 1735227499 1735230000 in
  photoTable (snd (deletePhoto (VString "p2") Sample.world0))
    = [Sample.cat; tomb]
  /\ deletePhoto (VString "p9") Sample.world0
     = (Ret (res_status_json 404 (error_body "Photo not found")),
        record_call (PrismaUpdate photo "p9") Sample.world0).
Proof.
  intros tomb.
  destruct (soft_delete_frame "p2" Sample.world0 eq_refl) as (_ & _ & Hf & _).
  destruct (soft_delete_frame "p9" Sample.world0 eq_refl) as (Hm & _).
  split; [|exact (Hm eq_refl)].
  destruct (Hf Sample.dog eq_refl) as (pre & post & Ht & Hpre & ->).
  simpl.
  destruct pre as [|x [|y pre]].
  - simpl in Ht. discriminate Ht.
  - simpl in Ht. injection Ht as <- <-. reflexivity.
  - simpl in Ht. injection Ht as _ _ Ht. destruct pre; discriminate Ht.
Defined.

(** * Soft delete and the by-id cache *)

Section DeleteAndCache.

Context {codec : JsonCodec}.

Lemma prisma_update_keeps_cache m id d w :
  let out := prisma_update m id d w in
  cache (snd out) = cache w /\ health (snd out) = health w
  /\ clock (snd out) = clock w /\ redis_calls (snd out) = redis_calls w.
Proof.
  unfold prisma_update.
  destruct (update_row id (mark_deleted d (clock w)) (table m w)) as [[a t']|];
    simpl.
  - destruct m; simpl; unfold redis_calls; simpl;
      rewrite List.filter_app, app_nil_r; auto.
  - unfold redis_calls; simpl. rewrite List.filter_app, app_nil_r. auto.
Qed.

(** None of the three delete handlers reads or writes the cache. *)
Lemma delete_keeps_cache (h : JsValue -> M Response) v w :
  h = deletePhoto \/ h = deleteVideoFirst \/ h = deleteVideo ->
  cache (snd (h v w)) = cache w /\ health (snd (h v w)) = health w
  /\ clock (snd (h v w)) = clock w
  /\ redis_calls (snd (h v w)) = redis_calls w.
Proof.
  intros [-> | [-> | ->]];
    unfold deletePhoto, deleteVideoFirst, deleteVideo, try_catch, bind, new_Date;
    (destruct (negb (js_truthy v) || negb (is_string v)); [simpl; auto|]).
  - pose proof (prisma_update_keeps_cache photo (js_to_string v) (clock w) w) as H.
    destruct (prisma_update photo (js_to_string v) (clock w) w) as [[a|e] w'];
      simpl in *; [exact H|].
    destruct (has_code "P2025" e); exact H.
  - pose proof (prisma_update_keeps_cache video (js_to_string v) (clock w) w) as H.
    destruct (prisma_update video (js_to_string v) (clock w) w) as [[a|e] w'];
      simpl in *; [exact H|].
    destruct (has_code "P2025" e); exact H.
  - pose proof (prisma_update_keeps_cache video (js_to_string v) (clock w) w) as H.
    destruct (prisma_update video (js_to_string v) (clock w) w) as [[a|e] w'];
      simpl in *; exact H.
Qed.

Lemma find_by_id_some id t a :
  find_by_id id t = Some a -> String.eqb (aid a) id = true.
Proof. intros H. apply find_some in H. apply H. Qed.

Lemma find_by_id_app id pre post :
  find_by_id id pre = None ->
  find_by_id id (pre ++ post) = find_by_id id post.
Proof.
  unfold find_by_id. induction pre as [|b r IH]; simpl; [reflexivity|].
  destruct (String.eqb (aid b) id); [discriminate | exact IH].
Qed.

End DeleteAndCache.

(** C3 (as stated) fails: photo [p1] is looked up (and cached), soft
    deleted ten seconds later, and looked up again ten seconds after
    that; the store holds the tombstone, the answer is the cached record
    from before the delete, with a null [deletedAt]. *)
Lemma delete_leaves_stale_cache_entry :
  let w1 := snd (getPhotoById (VString "p1") Sample.world0) in
  let w2 := snd (deletePhoto (VString "p1") (advance 10 w1)) in
  let tomb := mkAsset "p1" "/uploads/1735227498-cat.png" ["cat"; "pet"]
                      (Some 1735230010) EmptyString 1735227498 1735230010 in
  find_by_id "p1" (photoTable w2) = Some tomb
  /\ fst (getPhotoById (VString "p1") (advance 10 w2))
     = Ret (res_json (asset_json Sample.cat))
  /\ asset_json Sample.cat <> asset_json tomb
  /\ redis_calls w2 = redis_calls w1.
Proof.
  intros w1 w2 tomb.
  split; [reflexivity|].
  split; [vm_compute; reflexivity|].
  split; [vm_compute; discriminate|].
  vm_compute; reflexivity.
Qed.

(** C3 (as amended): a soft delete neither invalidates nor overwrites any
    cache entry; a by-id entry written before the delete keeps being
    served, as it was cached, until its 3600 seconds have run out; only a
    lookup after that reads the store, returns the tombstoned record and
    caches it. *)
Theorem delete_does_not_touch_cache {codec : JsonCodec}
    (s : string) (w : World) (Hs : JsString.truthy s = true) :
  let w' := snd (deletePhoto (VString s) w) in
  (* the cache is as it was, and no cache call was made *)
  (forall v, cache (snd (deletePhoto v w)) = cache w
             /\ redis_calls (snd (deletePhoto v w)) = redis_calls w
             /\ cache (snd (deleteVideoFirst v w)) = cache w
             /\ redis_calls (snd (deleteVideoFirst v w)) = redis_calls w
             /\ cache (snd (deleteVideo v w)) = cache w
             /\ redis_calls (snd (deleteVideo v w)) = redis_calls w)
  (* within the entry's life the lookup is answered from the entry *)
  /\ (forall data expiry v d,
        (forall msg, health w <> Unreachable msg) ->
        cache w !! photoIdKey s = Some (data, expiry) ->
        JsString.truthy data = true -> JSON_parse data = Some v ->
        0 <= d -> clock w + d < expiry ->
        getPhotoById (VString s) (advance d w')
        = (Ret (res_json v),
           record_call (RedisGet (photoIdKey s)) (advance d w')))
  (* after it the store is read: the tombstone is returned and cached *)
  /\ (forall a data expiry d,
        health w = Healthy ->
        find_by_id s (photoTable w) = Some a ->
        cache w !! photoIdKey s = Some (data, expiry) ->
        expiry <= clock w + d ->
        let tomb := mkAsset (aid a) (url a) (tags a) (Some (clock w))
                            (title a) (createdAt a) (clock w) in
        fst (getPhotoById (VString s) (advance d w'))
          = Ret (res_json (asset_json tomb))
        /\ cache (snd (getPhotoById (VString s) (advance d w'))) !! photoIdKey s
           = Some (JSON_stringify (asset_json tomb), clock w + d + 3600)).
Proof.
  intros w'.
  destruct (delete_keeps_cache deletePhoto (VString s) w (or_introl eq_refl))
    as (Hc & Hh & Hk & _).
  fold w' in Hc, Hh, Hk.
  split; [|split].
  - intros v.
    destruct (delete_keeps_cache deletePhoto v w (or_introl eq_refl))
      as (H1 & _ & _ & H2).
    destruct (delete_keeps_cache deleteVideoFirst v w (or_intror (or_introl eq_refl)))
      as (H3 & _ & _ & H4).
    destruct (delete_keeps_cache deleteVideo v w (or_intror (or_intror eq_refl)))
      as (H5 & _ & _ & H6).
    auto 10.
  - intros data expiry v d Hup He Ht Hp Hd Hlt.
    rewrite getPhotoById_valid by exact Hs.
    rewrite (fetch_hit photo s (photoIdKey s) _ (advance d w') data).
    + rewrite Hp. reflexivity.
    + simpl. rewrite Hh. exact Hup.
    + unfold cache_lookup. simpl. rewrite Hc, He, Hk.
      apply Z.ltb_lt in Hlt. rewrite Hlt. reflexivity.
    + exact Ht.
  - intros a data expiry d Hup Hf He Hge tomb.
    destruct (deletePhoto_found s w a Hs Hf) as (pre & post & Ht & Hpre & Hdel).
    assert (Hfind : find_by_id s (photoTable (advance d w')) = Some tomb).
    { unfold w'. rewrite Hdel. simpl. rewrite (find_by_id_app _ _ _ Hpre).
      unfold find_by_id. simpl. rewrite (find_by_id_some _ _ _ Hf).
      reflexivity. }
    assert (Hmiss : truthy_data (cache_lookup (photoIdKey s) (advance d w')) = false).
    { unfold cache_lookup. simpl. rewrite Hc, He, Hk.
      apply Z.ltb_ge in Hge. rewrite Hge. reflexivity. }
    rewrite getPhotoById_valid by exact Hs.
    pose proof (fetch_miss_some photo s (photoIdKey s) (FindUnique s)
                  (advance d w')) as H.
    simpl in H. rewrite Hh, Hk in H. simpl in Hfind. rewrite Hfind in H.
    rewrite (H Hup Hmiss eq_refl). simpl.
    split; [reflexivity | apply lookup_insert_eq].
Qed.

(** The sample service: [p1] is cached, then deleted; a lookup 10 seconds
    later is answered from the cache, one 3600 seconds later from the
    store. *)
Lemma delete_does_not_touch_cache_witness :
  let w1 := snd (getPhotoById (VString "p1") Sample.world0) in
  let w2 := snd (deletePhoto (VString "p1") w1) in
  let tomb := mkAsset "p1" "/uploads/1735227498-cat.png" ["cat"; "pet"]
                      (Some 1735230000) EmptyString 1735227498 1735230000 in
  cache w2 = cache w1
  /\ fst (getPhotoById (VString "p1") (advance 10 w2))
     = Ret (res_json (asset_json Sample.cat))
  /\ fst (getPhotoById (VString "p1") (advance 3600 w2))
     = Ret (res_json (asset_json tomb)).
Proof.
  intros w1 w2 tomb.
  destruct (delete_does_not_touch_cache "p1" w1 eq_refl) as (H1 & H2 & H3).
  split; [apply (H1 (VString "p1"))|].
  unfold w2.
  split.
  - rewrite (H2 (JSON_stringify (asset_json Sample.cat)) 1735233600
               (asset_json Sample.cat) 10).
    + reflexivity.
    + intros msg; discriminate.
    + vm_compute; reflexivity.
    + vm_compute; reflexivity.
    + vm_compute; reflexivity.
    + lia.
    + vm_compute; reflexivity.
  - destruct (H3 Sample.cat (JSON_stringify (asset_json Sample.cat)) 1735233600
                3600) as [H _].
    + reflexivity.
    + reflexivity.
    + vm_compute; reflexivity.
    + vm_compute; discriminate.
    + exact H.
Defined.

(** * The listings *)

Section Listing.

Context {codec : JsonCodec}.

Lemma currentPage_positive q : 1 <= currentPage_of q.
Proof.
  unfold currentPage_of. destruct (q_page q) as [p|]; [|lia].
  destruct (JsString.parseInt p) as [n|]; [|lia].
  destruct (0 <? n) eqn:E; [apply Z.ltb_lt in E|]; lia.
Qed.

(** Below [2 ^ 53] every integer is a double. *)
Lemma to_double_small z : Z.abs z < 2 ^ 53 -> JsString.to_double z = z.
Proof.
  intros H. unfold JsString.to_double.
  destruct (Z.ltb_spec (Z.abs z) (2 ^ 53)); [reflexivity | lia].
Qed.

Lemma int64_is_finite z : is_int64 z = true -> JsString.is_infinite z = false.
Proof.
  unfold is_int64, JsString.is_infinite, JsString.infinity. intros H.
  apply andb_prop in H. destruct H as [H1 H2].
  apply Z.leb_le in H1. apply Z.ltb_lt in H2. apply Z.leb_gt.
  assert (2 ^ 63 < 2 ^ 1024) by (apply Z.pow_lt_mono_r; lia). lia.
Qed.

Lemma small_is_int64 z : Z.abs z <= 2 ^ 53 -> is_int64 z = true.
Proof.
  intros H. unfold is_int64. apply andb_true_intro.
  split; [apply Z.leb_le | apply Z.ltb_lt]; lia.
Qed.

Lemma ceil_div_positive a n :
  0 < n -> n <= 2 ^ 53 -> ceil_div a (Some n) = Some ((a + n - 1) / n).
Proof.
  intros Hn Hb. unfold ceil_div.
  destruct (n =? 0) eqn:E; [apply Z.eqb_eq in E; lia|].
  rewrite (int64_is_finite n) by (apply small_is_int64; lia).
  f_equal.
  apply (Z.div_unique_pos _ _ _ (n - 1 - (- a) mod n)).
  - pose proof (Z.mod_pos_bound (- a) n Hn). lia.
  - pose proof (Z.div_mod (- a) n ltac:(lia)). lia.
Qed.

(** [limit] empty or zero: no paging. *)
Lemma listVideosPaged_all q w :
  isFetchAll_of q = true ->
  let wh := where_of q in
  let found := List.filter (matches wh) (videoTable w) in
  listVideosPaged q w
  = (Ret (res_json (JObj
       [ ("videos", JArr (map asset_json found));
         ("totalVideos", JNum (Z.of_nat (length found)));
         ("totalPages", JNum 1);
         ("currentPage", JNull);
         ("hasNextPage", JBool false);
         ("hasPreviousPage", JBool false) ])),
     record_call (PrismaCount video wh)
       (record_call (PrismaFindMany video wh None) w)).
Proof.
  intros Hall wh found.
  unfold listVideosPaged, try_catch, bind, promise_all2, prisma_findMany,
    prisma_count. rewrite Hall. reflexivity.
Qed.

(** A positive page size [n], with [page * n] in the range where the
    arithmetic of doubles is exact: the page is rows
    [(page-1)*n+1 .. page*n] of the matching rows in the order of their
    ids. *)
Lemma listVideosPaged_page q w n :
  pageSize_of q = Some n -> 0 < n -> currentPage_of q * n <= 2 ^ 53 ->
  let wh := where_of q in
  let found := List.filter (matches wh) (videoTable w) in
  let page := currentPage_of q in
  let total := Z.of_nat (length found) in
  let totalPages := (total + n - 1) / n in
  listVideosPaged q w
  = (Ret (res_json (JObj
       [ ("videos",
          JArr (map asset_json
                  (firstn (Z.to_nat n)
                          (skipn (Z.to_nat ((page - 1) * n))
                                 (order_by_id found)))));
         ("totalVideos", JNum total);
         ("totalPages", JNum totalPages);
         ("currentPage", JNum page);
         ("hasNextPage", JBool (page <? totalPages));
         ("hasPreviousPage", JBool (1 <? page)) ])),
     record_call (PrismaCount video wh)
       (record_call (PrismaFindMany video wh (Some (Some ((page - 1) * n), Some n)))
                    w)).
Proof.
  intros Hps Hn Hexact wh found page total totalPages.
  assert (Hall : isFetchAll_of q = false).
  { unfold isFetchAll_of. rewrite Hps.
    destruct (q_limit q) as [[|c r]|] eqn:El.
    - unfold pageSize_of in Hps. rewrite El in Hps.
      discriminate Hps.
    - destruct n; try reflexivity; lia.
    - destruct n; try reflexivity; lia. }
  pose proof (currentPage_positive q) as Hp. fold page in Hp, Hexact.
  assert (Hpb : page <= 2 ^ 53) by nia.
  assert (Hnb : n <= 2 ^ 53) by nia.
  assert (Hsb : 0 <= (page - 1) * n < 2 ^ 53) by nia.
  assert (E0 : js_sub page 1 = page - 1)
    by (apply to_double_small; lia).
  assert (E1 : js_mul (page - 1) (Some n) = Some ((page - 1) * n)).
  { unfold js_mul.
    rewrite (int64_is_finite n), (int64_is_finite (page - 1))
      by (apply small_is_int64; lia).
    rewrite andb_false_r. cbn [orb andb].
    rewrite to_double_small by lia. reflexivity. }
  assert (E2 : is_int64 ((page - 1) * n) = true) by (apply small_is_int64; lia).
  assert (E3 : is_int64 n = true) by (apply small_is_int64; lia).
  assert (E4 : ((page - 1) * n <? 0) = false) by (apply Z.ltb_ge; lia).
  assert (E5 : (0 <=? n) = true) by (apply Z.leb_le; lia).
  pose proof (ceil_div_positive total n Hn Hnb) as E6. fold totalPages in E6.
  assert (E7 : JsString.is_infinite page = false)
    by (apply int64_is_finite, small_is_int64; lia).
  unfold listVideosPaged, try_catch, bind, promise_all2, prisma_findMany,
    prisma_count, page_rows, ret, double_json.
  rewrite Hall, Hps. fold wh. fold page. rewrite E0, E1, E2, E3, E4, E5, E7.
  cbv beta iota zeta. cbn [fst snd negb andb orb].
  change (table video (record_call _ w)) with (videoTable w).
  change (table video w) with (videoTable w).
  fold found. fold total. rewrite E6. reflexivity.
Qed.

Lemma filter_all (t : list Asset) : List.filter (matches WAll) t = t.
Proof. induction t as [|a r IH]; simpl; [|rewrite IH]; reflexivity. Qed.

(** The unfiltered listing returns every row. *)
Lemma listVideos_all w :
  listVideos w
  = (Ret (res_json (JObj
       [ ("videos", JArr (map asset_json (videoTable w)));
         ("totalVideos", JNum (Z.of_nat (length (videoTable w)))) ])),
     record_call (PrismaFindMany video WAll None) w).
Proof.
  unfold listVideos, try_catch, bind, prisma_findMany, page_rows.
  rewrite filter_all. reflexivity.
Qed.

End Listing.

Section Ordering.






End Ordering.

Lemma rows_tagged_where {codec : JsonCodec} q rows :
  List.filter (matches (where_of q)) rows = rows_tagged (q_tag q) rows.
Proof.
  unfold where_of, rows_tagged. destruct (q_tag q) as [[|c r]|];
    try apply filter_all. reflexivity.
Qed.



(** * Uploads and the capacity ceiling *)

Section Upload.

Context {codec : JsonCodec}.

Lemma prisma_count_all m w :
  prisma_count m WAll w
  = (Ret (Z.of_nat (length (table m w))), record_call (PrismaCount m WAll) w).
Proof. unfold prisma_count. rewrite filter_all. reflexivity. Qed.

Lemma redis_calls_record c w :
  redis_calls (record_call c w)
  = redis_calls w ++ (if is_redis_call c then [c] else []).
Proof.
  unfold redis_calls. simpl. rewrite List.filter_app. simpl.
  destruct (is_redis_call c); reflexivity.
Qed.

Local Ltac upload_done :=
  simpl; unfold redis_calls; simpl;
  rewrite ?List.filter_app; simpl; rewrite ?app_nil_r, <- ?app_assoc;
  repeat split; eauto.

(** At the ceiling no request creates a row, whatever it carries. *)
Lemma upload_full_keeps_tables req cuid w :
  (length (photoTable w) = 50%nat ->
     photoTable (snd (uploadPhoto req cuid w)) = photoTable w
     /\ exists msg, fst (uploadPhoto req cuid w)
                    = Ret (res_status_json 400 (error_body msg)))
  /\ (length (videoTable w) = 20%nat ->
      videoTable (snd (uploadVideo req cuid w)) = videoTable w
      /\ exists msg, fst (uploadVideo req cuid w)
                     = Ret (res_status_json 400 (error_body msg))).
Proof.
  split; intros Hlen; unfold uploadPhoto, uploadVideo, try_catch, bind;
    (destruct (u_file req) as [f|]; [|simpl; eauto]);
    (destruct (negb (field_truthy (u_tags req))); [simpl; eauto|]);
    rewrite prisma_count_all; unfold table; rewrite Hlen; simpl; eauto.
Qed.

Lemma uploadPhoto_full req cuid w filename :
  u_file req = Some filename -> field_truthy (u_tags req) = true ->
  length (photoTable w) = 50%nat ->
  uploadPhoto req cuid w
  = (Ret (res_status_json 400 (error_body "Photo storage limit reached (50)")),
     record_call (PrismaCount photo WAll) w).
Proof.
  intros Hf Ht Hlen. unfold uploadPhoto, try_catch, bind.
  rewrite Hf, Ht. cbn [negb]. cbv beta iota.
  rewrite prisma_count_all. unfold table. rewrite Hlen. reflexivity.
Qed.

Lemma uploadVideo_full req cuid w filename :
  u_file req = Some filename -> field_truthy (u_tags req) = true ->
  length (videoTable w) = 20%nat ->
  uploadVideo req cuid w
  = (Ret (res_status_json 400 (error_body "Video storage limit reached (20)")),
     record_call (PrismaCount video WAll) w).
Proof.
  intros Hf Ht Hlen. unfold uploadVideo, try_catch, bind.
  rewrite Hf, Ht. cbn [negb]. cbv beta iota.
  rewrite prisma_count_all. unfold table. rewrite Hlen. reflexivity.
Qed.

Lemma uploadPhoto_accepted req cuid w filename tagsText parsed ts :
  u_file req = Some filename -> u_tags req = Some tagsText ->
  JsString.truthy tagsText = true ->
  JSON_parse tagsText = Some parsed -> as_string_list parsed = Some ts ->
  find_by_id (default cuid (u_imageId req)) (photoTable w) = None ->
  (length (photoTable w) < 50)%nat ->
  let a := mkAsset (default cuid (u_imageId req)) ("/uploads/" +:+ filename)
                   ts None EmptyString (clock w) (clock w) in
  exists w',
    uploadPhoto req cuid w = (Ret (res_status_json 201 (asset_json a)), w')
    /\ photoTable w' = photoTable w ++ [a]
    /\ videoTable w' = videoTable w
    /\ cache w' = cache w
    /\ redis_calls w' = redis_calls w
    /\ exists rest, calls w' = calls w ++ PrismaCount photo WAll :: rest.
Proof.
  intros Hf Ht Htr Hp Hl Hfresh Hlen a.
  unfold uploadPhoto, try_catch, bind, json_parse, prisma_create,
    prisma_findUnique, ret.
  rewrite Hf, Ht. cbn [field_truthy]. rewrite Htr. cbn [negb]. cbv beta iota.
  rewrite prisma_count_all. unfold table.
  destruct (50 <=? Z.of_nat (length (photoTable w))) eqn:E;
    [apply Z.leb_le in E; lia|].
  destruct (u_imageId req) as [[|c r]|] eqn:Ei; simpl in Hfresh |- *;
    rewrite ?Hfresh, Hp; simpl; rewrite Hl; simpl; rewrite Hfresh; simpl;
    (eexists; split; [reflexivity|]);
    upload_done.
Qed.

Lemma uploadVideo_accepted req cuid w filename tagsText parsed ts :
  u_file req = Some filename -> u_tags req = Some tagsText ->
  JsString.truthy tagsText = true ->
  JSON_parse tagsText = Some parsed -> as_string_list parsed = Some ts ->
  find_by_id cuid (videoTable w) = None ->
  (length (videoTable w) < 20)%nat ->
  let a := mkAsset cuid ("/uploads/" +:+ filename)
                   ts None EmptyString (clock w) (clock w) in
  exists w',
    uploadVideo req cuid w = (Ret (res_status_json 201 (asset_json a)), w')
    /\ videoTable w' = videoTable w ++ [a]
    /\ photoTable w' = photoTable w
    /\ cache w' = cache w
    /\ redis_calls w' = redis_calls w
    /\ exists rest, calls w' = calls w ++ PrismaCount video WAll :: rest.
Proof.
  intros Hf Ht Htr Hp Hl Hfresh Hlen a.
  unfold uploadVideo, try_catch, bind, json_parse, prisma_create, ret.
  rewrite Hf, Ht. cbn [field_truthy]. rewrite Htr. cbn [negb]. cbv beta iota.
  rewrite prisma_count_all. unfold table.
  destruct (20 <=? Z.of_nat (length (videoTable w))) eqn:E;
    [apply Z.leb_le in E; lia|].
  simpl. rewrite Hp. simpl. rewrite Hl. simpl. rewrite Hfresh. simpl.
  eexists; split; [reflexivity|].
  upload_done.
Qed.

End Upload.

(** C7: an upload that carries a file and tags is refused with the
    capacity error when the store already counts 50 photos (20 videos),
    and no row is created, by this or by any other request; with 49
    photos (19 videos), well-formed tags and a free identifier it is
    answered 201 and the table then holds 50 (20) rows.  The admission
    test is the first call of the handler, a count on the store; the
    cache is never called. *)
Theorem upload_capacity_boundary {codec : JsonCodec}
    (req : UploadRequest) (cuid : string) (w : World)
    (filename tagsText : string)
    (Hfile : u_file req = Some filename)
    (Htags : u_tags req = Some tagsText)
    (Hnonempty : JsString.truthy tagsText = true) :
  (length (photoTable w) = 50%nat ->
     uploadPhoto req cuid w
     = (Ret (res_status_json 400 (error_body "Photo storage limit reached (50)")),
        record_call (PrismaCount photo WAll) w))
  /\ (length (videoTable w) = 20%nat ->
      uploadVideo req cuid w
      = (Ret (res_status_json 400 (error_body "Video storage limit reached (20)")),
         record_call (PrismaCount video WAll) w))
  /\ (forall anyreq,
        (length (photoTable w) = 50%nat ->
           photoTable (snd (uploadPhoto anyreq cuid w)) = photoTable w)
        /\ (length (videoTable w) = 20%nat ->
            videoTable (snd (uploadVideo anyreq cuid w)) = videoTable w))
  /\ (forall parsed ts,
        JSON_parse tagsText = Some parsed -> as_string_list parsed = Some ts ->
        (length (photoTable w) = 49%nat ->
         find_by_id (default cuid (u_imageId req)) (photoTable w) = None ->
         let a := mkAsset (default cuid (u_imageId req))
                          ("/uploads/" +:+ filename) ts None EmptyString
                          (clock w) (clock w) in
         exists w',
           uploadPhoto req cuid w
             = (Ret (res_status_json 201 (asset_json a)), w')
           /\ photoTable w' = photoTable w ++ [a]
           /\ length (photoTable w') = 50%nat
           /\ redis_calls w' = redis_calls w
           /\ exists rest, calls w' = calls w ++ PrismaCount photo WAll :: rest)
        /\ (length (videoTable w) = 19%nat ->
            find_by_id cuid (videoTable w) = None ->
            let a := mkAsset cuid ("/uploads/" +:+ filename) ts None EmptyString
                             (clock w) (clock w) in
            exists w',
              uploadVideo req cuid w
                = (Ret (res_status_json 201 (asset_json a)), w')
              /\ videoTable w' = videoTable w ++ [a]
              /\ length (videoTable w') = 20%nat
              /\ redis_calls w' = redis_calls w
              /\ exists rest, calls w' = calls w ++ PrismaCount video WAll :: rest)).
Proof.
  assert (Ht : field_truthy (u_tags req) = true)
    by (rewrite Htags; exact Hnonempty).
  split; [|split; [|split]].
  - intros Hlen. exact (uploadPhoto_full req cuid w filename Hfile Ht Hlen).
  - intros Hlen. exact (uploadVideo_full req cuid w filename Hfile Ht Hlen).
  - intros anyreq.
    destruct (upload_full_keeps_tables anyreq cuid w) as [Hp Hv].
    split; intros Hlen; [apply (Hp Hlen) | apply (Hv Hlen)].
  - intros parsed ts Hparse Hlist. split.
    + intros Hlen Hfresh a.
      destruct (uploadPhoto_accepted req cuid w filename tagsText parsed ts
                  Hfile Htags Hnonempty Hparse Hlist Hfresh ltac:(lia))
        as (w' & E & Hp & _ & _ & Hr & Hc).
      exists w'. repeat split; auto.
      rewrite Hp, length_app, Hlen. reflexivity.
    + intros Hlen Hfresh a.
      destruct (uploadVideo_accepted req cuid w filename tagsText parsed ts
                  Hfile Htags Hnonempty Hparse Hlist Hfresh ltac:(lia))
        as (w' & E & Hp & _ & _ & Hr & Hc).
      exists w'. repeat split; auto.
      rewrite Hp, length_app, Hlen. reflexivity.
Qed.

(** The sample upload against 50 photos, and against 49. *)
Lemma upload_capacity_boundary_witness :
  uploadPhoto SampleUpload.request "cnew" (SampleUpload.holding 50 0)
    = (Ret (res_status_json 400 (error_body "Photo storage limit reached (50)")),
       record_call (PrismaCount photo WAll) (SampleUpload.holding 50 0))
  /\ exists w',
       uploadPhoto SampleUpload.request "cnew" (SampleUpload.holding 49 0)
       = (Ret (res_status_json 201
                 (asset_json (mkAsset "cnew" "/uploads/1735230000-new.png"
                                ["pet"] None EmptyString
                                1735230000 1735230000))), w')
       /\ length (photoTable w') = 50%nat.
Proof.
  pose proof (upload_capacity_boundary SampleUpload.request "cnew"
                (SampleUpload.holding 50 0) _ _ eq_refl eq_refl eq_refl)
    as (Hfull & _).
  pose proof (upload_capacity_boundary SampleUpload.request "cnew"
                (SampleUpload.holding 49 0) _ _ eq_refl eq_refl eq_refl)
    as (_ & _ & _ & Hok).
  split; [exact (Hfull eq_refl)|].
  destruct (Hok (JArr [JStr "pet"]) ["pet"] eq_refl eq_refl) as [Hp _].
  destruct (Hp eq_refl eq_refl) as (w' & E & _ & Hlen & _).
  exists w'. split; [exact E | exact Hlen].
Defined.

(** * Tombstones in listings and searches *)


Section Tombstones.

Context {codec : JsonCodec}.



End Tombstones.



(** * The effect of every handler on the world *)

Section Effects.

Context {codec : JsonCodec}.

Lemma table_step_refl cap now t : TableStep cap now t t.
Proof. left. reflexivity. Qed.

Lemma world_step_calls w w' :
  clock w' = clock w -> health w' = health w -> cache w' = cache w ->
  photoTable w' = photoTable w -> videoTable w' = videoTable w ->
  WorldStep w w'.
Proof.
  intros Hc Hh Hk Hp Hv. constructor; auto.
  - rewrite Hp. apply table_step_refl.
  - rewrite Hv. apply table_step_refl.
Qed.

Lemma fetchAndCache_step m i k q w :
  WorldStep w (snd (fetchAndCache m i k q w)).
Proof.
  destruct (health w) as [| msg | msg] eqn:Hh.
  - destruct (truthy_data (cache_lookup k w)) eqn:Hc.
    + destruct (cache_lookup k w) as [data|] eqn:Hd; [|discriminate].
      rewrite (fetch_hit m i k q w data); auto; [|intros ?; congruence].
      apply world_step_calls; reflexivity.
    + destruct (no_result (run_query m q w)) eqn:Hn.
      * rewrite fetch_miss_none; auto; [|intros ?; congruence].
        apply world_step_calls; reflexivity.
      * rewrite fetch_miss_some; auto.
        constructor; simpl; eauto using table_step_refl.
  - destruct (truthy_data (cache_lookup k w)) eqn:Hc.
    + destruct (cache_lookup k w) as [data|] eqn:Hd; [|discriminate].
      rewrite (fetch_hit m i k q w data); auto; [|intros ?; congruence].
      apply world_step_calls; reflexivity.
    + destruct (no_result (run_query m q w)) eqn:Hn.
      * rewrite fetch_miss_none; auto; [|intros ?; congruence].
        apply world_step_calls; reflexivity.
      * rewrite (fetch_miss_readonly m i k q w msg); auto.
        apply world_step_calls; reflexivity.
  - rewrite (fetch_unreachable m i k q w msg); auto.
    apply world_step_calls; reflexivity.
Qed.

Lemma getPhotoById_step v w : WorldStep w (snd (getPhotoById v w)).
Proof.
  destruct v as [| | b | n | s | l | l];
    try (apply world_step_calls; reflexivity).
  - destruct b; apply world_step_calls; reflexivity.
  - destruct (n =? 0) eqn:E; unfold getPhotoById, try_catch; simpl;
      rewrite E; apply world_step_calls; reflexivity.
  - destruct (JsString.truthy s) eqn:Hs.
    + rewrite getPhotoById_valid by exact Hs. apply fetchAndCache_step.
    + unfold getPhotoById, try_catch. simpl. rewrite Hs.
      apply world_step_calls; reflexivity.
Qed.

Lemma searchPhotosByTags_step v w : WorldStep w (snd (searchPhotosByTags v w)).
Proof.
  destruct v as [| | b | n | s | l | l];
    try (apply world_step_calls; reflexivity).
  - destruct b; apply world_step_calls; reflexivity.
  - destruct (n =? 0) eqn:E; unfold searchPhotosByTags, try_catch; simpl;
      rewrite E; apply world_step_calls; reflexivity.
  - destruct (JsString.truthy s) eqn:Hs.
    + rewrite searchPhotosByTags_valid by exact Hs. apply fetchAndCache_step.
    + unfold searchPhotosByTags, try_catch. simpl. rewrite Hs.
      apply world_step_calls; reflexivity.
Qed.

Lemma searchVideosByTags_step v w : WorldStep w (snd (searchVideosByTags v w)).
Proof.
  destruct v as [| | b | n | s | l | l];
    try (apply world_step_calls; reflexivity).
  - destruct b; apply world_step_calls; reflexivity.
  - destruct (n =? 0) eqn:E; unfold searchVideosByTags, try_catch; simpl;
      rewrite E; apply world_step_calls; reflexivity.
  - destruct (JsString.truthy s) eqn:Hs.
    + rewrite searchVideosByTags_valid by exact Hs. apply fetchAndCache_step.
    + unfold searchVideosByTags, try_catch. simpl. rewrite Hs.
      apply world_step_calls; reflexivity.
Qed.

Lemma listVideos_step w : WorldStep w (snd (listVideos w)).
Proof. rewrite listVideos_all. apply world_step_calls; reflexivity. Qed.

Lemma listVideosPaged_step q w : WorldStep w (snd (listVideosPaged q w)).
Proof.
  unfold listVideosPaged, try_catch, bind, promise_all2, prisma_findMany,
    prisma_count.
  destruct (page_rows _ _); apply world_step_calls; reflexivity.
Qed.

End Effects.

Section EffectsOfWrites.

Context {codec : JsonCodec}.

Local Ltac quiet := solve [apply world_step_calls; reflexivity].

Lemma snd_try_next (body : M Response) w :
  snd (try_catch body next w) = snd (body w).
Proof. unfold try_catch. destruct (body w) as [[r|e] w']; reflexivity. Qed.

(** The tail of both upload handlers: parse the tags, create the row,
    answer 201. *)
Lemma create_tail_step m url tagsText imageId cuid cap w :
  (length (table m w) < cap)%nat ->
  let w' := snd ((let* parsed := json_parse tagsText in
                  let* a := prisma_create m (mkCreateData url parsed imageId) cuid in
                  ret (res_status_json 201 (asset_json a))) w) in
  clock w' = clock w /\ health w' = health w /\ cache w' = cache w
  /\ TableStep cap (clock w) (table m w) (table m w')
  /\ (forall m', m' <> m -> table m' w' = table m' w).
Proof.
  intros Hlen. unfold bind, json_parse, prisma_create.
  destruct (JSON_parse tagsText) as [j|]; simpl;
    [|repeat split; auto using table_step_refl].
  destruct (as_string_list j) as [ts|]; simpl;
    [|repeat split; auto using table_step_refl].
  destruct (find_by_id (default cuid imageId) (table m w)) eqn:Hf; simpl;
    [repeat split; auto using table_step_refl|].
  destruct m; simpl; repeat split; auto;
    try (right; left; eexists; repeat split; eauto; fail);
    intros [] ?; simpl; congruence.
Qed.

Lemma uploadPhoto_step req cuid w : WorldStep w (snd (uploadPhoto req cuid w)).
Proof.
  unfold uploadPhoto. rewrite snd_try_next.
  destruct (u_file req) as [f|]; [|quiet].
  destruct (negb (field_truthy (u_tags req))); [quiet|].
  unfold bind at 1. rewrite prisma_count_all.
  destruct (50 <=? Z.of_nat (length (table photo w))) eqn:E; [quiet|].
  apply Z.leb_gt in E.
  set (w1 := record_call (PrismaCount photo WAll) w).
  unfold bind at 1.
  assert (Htail : forall w2, clock w2 = clock w -> health w2 = health w ->
            cache w2 = cache w -> photoTable w2 = photoTable w ->
            videoTable w2 = videoTable w ->
            WorldStep w
              (snd ((let* parsed := json_parse (default EmptyString (u_tags req)) in
                     let* a := prisma_create photo
                                 (mkCreateData ("/uploads/" +:+ f) parsed
                                               (u_imageId req)) cuid in
                     ret (res_status_json 201 (asset_json a))) w2))).
  { intros w2 Hc Hh Hk Hp Hv.
    destruct (create_tail_step photo ("/uploads/" +:+ f)
                (default EmptyString (u_tags req)) (u_imageId req) cuid 50 w2)
      as (H1 & H2 & H3 & H4 & H5).
    - simpl. rewrite Hp. simpl in E. lia.
    - specialize (H5 video ltac:(discriminate)). simpl in H4, H5.
      constructor; [congruence | congruence | left; congruence | |].
      + rewrite Hc, Hp in H4. exact H4.
      + rewrite H5, Hv. apply table_step_refl. }
  destruct (field_truthy (u_imageId req)).
  - unfold prisma_findUnique.
    destruct (find_by_id _ _); [quiet|]. apply Htail; reflexivity.
  - apply Htail; reflexivity.
Qed.

Lemma uploadVideo_step req cuid w : WorldStep w (snd (uploadVideo req cuid w)).
Proof.
  unfold uploadVideo. rewrite snd_try_next.
  destruct (u_file req) as [f|]; [|quiet].
  destruct (negb (field_truthy (u_tags req))); [quiet|].
  unfold bind at 1. rewrite prisma_count_all.
  destruct (20 <=? Z.of_nat (length (table video w))) eqn:E; [quiet|].
  apply Z.leb_gt in E.
  destruct (create_tail_step video ("/uploads/" +:+ f)
              (default EmptyString (u_tags req)) None cuid 20
              (record_call (PrismaCount video WAll) w))
    as (H1 & H2 & H3 & H4 & H5).
  - simpl. simpl in E. lia.
  - specialize (H5 photo ltac:(discriminate)). simpl in H1, H2, H3, H4, H5.
    constructor; [congruence | congruence | left; congruence | |].
    + rewrite H5. apply table_step_refl.
    + exact H4.
Qed.

Lemma update_step m s w :
  let w' := snd (prisma_update m s (clock w) w) in
  clock w' = clock w /\ health w' = health w /\ cache w' = cache w
  /\ (forall cap, TableStep cap (clock w) (table m w) (table m w'))
  /\ (forall m', m' <> m -> table m' w' = table m' w).
Proof.
  destruct (find_by_id s (table m w)) as [a|] eqn:Hf.
  - destruct (prisma_update_found m s (clock w) w a Hf)
      as (pre & post & Ht & Hpre & Hu).
    rewrite Hu. simpl.
    assert (Ea : aid a = s)
      by (apply String.eqb_eq, (find_by_id_some _ _ _ Hf)).
    destruct m; simpl in *; repeat split; auto;
      try (intros cap; right; right; exists pre, a, post; rewrite Ea; auto);
      intros [] ?; simpl; congruence.
  - rewrite (prisma_update_missing m s (clock w) w Hf). simpl.
    repeat split; auto using table_step_refl.
Qed.

Lemma delete_step (h : JsValue -> M Response) v w :
  h = deletePhoto \/ h = deleteVideoFirst \/ h = deleteVideo ->
  WorldStep w (snd (h v w)).
Proof.
  intros Hh.
  assert (Hm : exists m,
             snd (h v w) = w
             \/ snd (h v w) = snd (prisma_update m (js_to_string v) (clock w) w)).
  { destruct Hh as [-> | [-> | ->]]; [exists photo | exists video | exists video];
      unfold deletePhoto, deleteVideoFirst, deleteVideo, try_catch, bind, new_Date;
      (destruct (negb (js_truthy v) || negb (is_string v)); [left; reflexivity|]);
      right;
      destruct (prisma_update _ (js_to_string v) (clock w) w) as [[a|e] w'];
      simpl; try reflexivity; destruct (has_code "P2025" e); reflexivity. }
  destruct Hm as [m [-> | ->]]; [quiet|].
  destruct (update_step m (js_to_string v) w) as (H1 & H2 & H3 & H4 & H5).
  destruct m.
  - specialize (H5 video ltac:(discriminate)). simpl in H5.
    constructor; [exact H1 | exact H2 | left; exact H3 | apply (H4 50%nat)
                 | rewrite H5; apply table_step_refl].
  - specialize (H5 photo ltac:(discriminate)). simpl in H5.
    constructor; [exact H1 | exact H2 | left; exact H3
                 | rewrite H5; apply table_step_refl | apply (H4 20%nat)].
Qed.

End EffectsOfWrites.

(** * Routing *)

Section Routing.

Context {codec : JsonCodec}.

Import Router.

(** A route that repeats the method and path of an earlier one never
    runs. *)
Lemma dispatch_on_shadowed (r0 r : Route) (rs1 rs2 : list Route) req :
  In r0 rs1 -> r_method r0 = r_method r -> r_path r0 = r_path r ->
  dispatch_on (rs1 ++ r :: rs2) req = dispatch_on (rs1 ++ rs2) req.
Proof.
  intros Hin Hm Hp. induction rs1 as [|x rs1 IH]; [destruct Hin|].
  simpl. destruct (method_eqb (r_method x) (method req)) eqn:Em.
  - destruct (match_path (r_path x) (path req) VUndefined) eqn:Ep;
      [reflexivity|].
    destruct Hin as [-> | Hin]; [|exact (IH Hin)].
    clear IH. induction rs1 as [|y rs1 IH]; simpl.
    + rewrite <- Hm, Em, <- Hp, Ep. reflexivity.
    + rewrite IH. reflexivity.
  - destruct Hin as [-> | Hin]; [|exact (IH Hin)].
    clear IH. induction rs1 as [|y rs1 IH]; simpl.
    + rewrite <- Hm, Em. reflexivity.
    + rewrite IH. reflexivity.
Qed.

End Routing.

(** X1: the handlers registered a second time for GET /v1/videos (the tag
    search of lines 307-344 and the paged listing of lines 421-470) and
    for DELETE /v1/videos/:id (lines 474-496) never run: every request is
    served as if they were not registered. *)
Theorem repeated_routes_never_run {codec : JsonCodec} (req : Router.HttpRequest) :
  Router.dispatch_on Router.routes req
  = Router.dispatch_on Router.live_routes req.
Proof.
  unfold Router.routes, Router.live_routes.
  set (r1 := Router.mkRoute Router.GET [Router.Lit "v1"; Router.Lit "photos"; Router.Param] _).
  set (r2 := Router.mkRoute Router.GET [Router.Lit "v1"; Router.Lit "photos"] _).
  set (r3 := Router.mkRoute Router.GET [Router.Lit "v1"; Router.Lit "videos"] (fun _ _ => listVideos)).
  set (r4 := Router.mkRoute Router.POST [Router.Lit "v1"; Router.Lit "photos"; Router.Lit "upload"] _).
  set (r5 := Router.mkRoute Router.DELETE [Router.Lit "v1"; Router.Lit "videos"; Router.Param] (fun id _ => deleteVideoFirst id)).
  set (r6 := Router.mkRoute Router.GET [Router.Lit "v1"; Router.Lit "videos"] (fun _ req0 => searchVideosByTags _)).
  set (r7 := Router.mkRoute Router.DELETE [Router.Lit "v1"; Router.Lit "photos"; Router.Param] _).
  set (r8 := Router.mkRoute Router.POST [Router.Lit "v1"; Router.Lit "videos"; Router.Lit "upload"] _).
  set (r9 := Router.mkRoute Router.GET [Router.Lit "v1"; Router.Lit "videos"] (fun _ req0 => listVideosPaged _)).
  set (r10 := Router.mkRoute Router.DELETE [Router.Lit "v1"; Router.Lit "videos"; Router.Param] (fun id _ => deleteVideo id)).
  change [r1; r2; r3; r4; r5; r6; r7; r8; r9; r10]
    with ([r1; r2; r3; r4; r5] ++ r6 :: [r7; r8; r9; r10]).
  rewrite (dispatch_on_shadowed r3 r6); [|simpl; tauto|reflexivity|reflexivity].
  change ([r1; r2; r3; r4; r5] ++ [r7; r8; r9; r10])
    with ([r1; r2; r3; r4; r5; r7; r8] ++ r9 :: [r10]).
  rewrite (dispatch_on_shadowed r3 r9); [|simpl; tauto|reflexivity|reflexivity].
  change ([r1; r2; r3; r4; r5; r7; r8] ++ [r10])
    with ([r1; r2; r3; r4; r5; r7; r8] ++ r10 :: []).
  rewrite (dispatch_on_shadowed r5 r10); [|simpl; tauto|reflexivity|reflexivity].
  reflexivity.
Qed.

Section Answers.

Context {codec : JsonCodec}.

Lemma answers_weaken codes codes' h :
  (forall c, In c codes -> In c codes') -> Answers codes h -> Answers codes' h.
Proof.
  intros Hsub H w. destruct (H w) as (r & w' & E & Hin). eauto.
Qed.

Lemma fetchAndCache_answers m i k q : Answers [200; 404; 500] (fetchAndCache m i k q).
Proof.
  intros w.
  destruct (health w) as [| msg | msg] eqn:Hh.
  - destruct (truthy_data (cache_lookup k w)) eqn:Hc.
    + destruct (cache_lookup k w) as [data|] eqn:Hd; [|discriminate].
      rewrite (fetch_hit m i k q w data); auto; [|intros ?; congruence].
      destruct (JSON_parse data); eexists; eexists; (split; [reflexivity|]);
        simpl; tauto.
    + destruct (no_result (run_query m q w)) eqn:Hn.
      * rewrite fetch_miss_none; auto; [|intros ?; congruence].
        eexists; eexists; (split; [reflexivity|]); simpl; tauto.
      * rewrite fetch_miss_some; auto.
        eexists; eexists; (split; [reflexivity|]); simpl; tauto.
  - destruct (truthy_data (cache_lookup k w)) eqn:Hc.
    + destruct (cache_lookup k w) as [data|] eqn:Hd; [|discriminate].
      rewrite (fetch_hit m i k q w data); auto; [|intros ?; congruence].
      destruct (JSON_parse data); eexists; eexists; (split; [reflexivity|]);
        simpl; tauto.
    + destruct (no_result (run_query m q w)) eqn:Hn.
      * rewrite fetch_miss_none; auto; [|intros ?; congruence].
        eexists; eexists; (split; [reflexivity|]); simpl; tauto.
      * rewrite (fetch_miss_readonly m i k q w msg); auto.
        eexists; eexists; (split; [reflexivity|]); simpl; tauto.
  - rewrite (fetch_unreachable m i k q w msg); auto.
    eexists; eexists; (split; [reflexivity|]); simpl; tauto.
Qed.

Local Ltac answered :=
  eexists; eexists; (split; [reflexivity|]); simpl; tauto.

Local Ltac split_cases :=
  repeat match goal with
         | |- context [match ?x with _ => _ end] =>
             match type of x with
             | sumbool _ _ => fail 1
             | _ => destruct x eqn:?
             end; simpl
         end.

Lemma getPhotoById_answers v : Answers [200; 400; 404; 500] (getPhotoById v).
Proof.
  intros w. destruct (negb (js_truthy v) || negb (is_string v)) eqn:E.
  - unfold getPhotoById, try_catch. rewrite E. answered.
  - destruct v as [| | b | n | s | l | l]; simpl in E;
      rewrite ?orb_true_r in E; try discriminate E.
    destruct (JsString.truthy s) eqn:Hs; [|discriminate].
    rewrite getPhotoById_valid by exact Hs.
    destruct (fetchAndCache_answers photo s (photoIdKey s) (FindUnique s) w)
      as (r & w' & -> & Hin).
    exists r, w'. split; [reflexivity|]. simpl in *. tauto.
Qed.

Lemma searchPhotosByTags_answers v :
  Answers [200; 400; 404; 500] (searchPhotosByTags v).
Proof.
  intros w. destruct (negb (js_truthy v) || negb (is_string v)) eqn:E.
  - unfold searchPhotosByTags, try_catch. rewrite E. answered.
  - destruct v as [| | b | n | s | l | l]; simpl in E;
      rewrite ?orb_true_r in E; try discriminate E.
    destruct (JsString.truthy s) eqn:Hs; [|discriminate].
    rewrite searchPhotosByTags_valid by exact Hs.
    destruct (fetchAndCache_answers photo s (photosTagsKey s)
                (FindMany (WHasSome (tag_list s))) w) as (r & w' & -> & Hin).
    exists r, w'. split; [reflexivity|]. simpl in *. tauto.
Qed.

Lemma listVideos_answers : Answers [200] listVideos.
Proof. intros w. rewrite listVideos_all. answered. Qed.

Lemma yields_ret {A} (P : A -> Prop) a : P a -> Yields P (ret a).
Proof. intros H w. exact H. Qed.

Lemma yields_bind {A B} (Q : A -> Prop) (P : B -> Prop) m (k : A -> M B) :
  Yields Q m -> (forall a, Q a -> Yields P (k a)) -> Yields P (bind m k).
Proof.
  intros Hm Hk w. unfold bind. specialize (Hm w).
  destruct (m w) as [[a|e] w']; [apply (Hk a Hm) | exact Hm].
Qed.

Lemma yields_count m wh : Yields (fun _ => True) (prisma_count m wh).
Proof. intros w. exact I. Qed.

Lemma yields_findUnique m id : Yields (fun _ => True) (prisma_findUnique m id).
Proof. intros w. exact I. Qed.

Lemma yields_parse s : Yields (fun _ => True) (json_parse s).
Proof. intros w. unfold json_parse. destruct (JSON_parse s); reflexivity. Qed.

Lemma yields_create m d cuid : Yields (fun _ => True) (prisma_create m d cuid).
Proof.
  intros w. unfold prisma_create.
  destruct (as_string_list (cd_tags d)); [|reflexivity].
  destruct (find_by_id _ _); [reflexivity | exact I].
Qed.

(** A body whose errors carry no status, under [catch (err) { next(err) }]:
    the request is answered, with 500 when the body threw. *)
Lemma try_next_answers codes (body : M Response) :
  In 500 codes ->
  Yields (fun r => In (status r) codes) body ->
  Answers codes (try_catch body next).
Proof.
  intros H500 Hb w. unfold try_catch. specialize (Hb w).
  destruct (body w) as [[r|e] w']; [eauto|].
  exists (errorHandler e), w'. split; [reflexivity|].
  unfold errorHandler. rewrite Hb. exact H500.
Qed.

Lemma uploadPhoto_answers req cuid : Answers [201; 400; 500] (uploadPhoto req cuid).
Proof.
  apply try_next_answers; [simpl; tauto|].
  destruct (u_file req) as [f|]; [|apply yields_ret; simpl; tauto].
  destruct (negb (field_truthy (u_tags req))); [apply yields_ret; simpl; tauto|].
  eapply yields_bind; [apply yields_count|]. intros n _.
  destruct (50 <=? n); [apply yields_ret; simpl; tauto|].
  eapply (yields_bind (fun _ => True)).
  - destruct (field_truthy (u_imageId req));
      [apply yields_findUnique | apply yields_ret; exact I].
  - intros [existing|] _; [apply yields_ret; simpl; tauto|].
    eapply yields_bind; [apply yields_parse|]. intros parsed _.
    eapply yields_bind; [apply yields_create|]. intros a _.
    apply yields_ret; simpl; tauto.
Qed.

Lemma uploadVideo_answers req cuid : Answers [201; 400; 500] (uploadVideo req cuid).
Proof.
  apply try_next_answers; [simpl; tauto|].
  destruct (u_file req) as [f|]; [|apply yields_ret; simpl; tauto].
  destruct (negb (field_truthy (u_tags req))); [apply yields_ret; simpl; tauto|].
  eapply yields_bind; [apply yields_count|]. intros n _.
  destruct (20 <=? n); [apply yields_ret; simpl; tauto|].
  eapply yields_bind; [apply yields_parse|]. intros parsed _.
  eapply yields_bind; [apply yields_create|]. intros a _.
  apply yields_ret; simpl; tauto.
Qed.

Lemma delete_answers (h : JsValue -> M Response) v :
  h = deletePhoto \/ h = deleteVideoFirst \/ h = deleteVideo ->
  Answers [200; 400; 404] (h v).
Proof.
  intros Hh w.
  destruct (find_by_id (js_to_string v) (photoTable w)) as [a|] eqn:Hp;
  destruct (find_by_id (js_to_string v) (videoTable w)) as [b|] eqn:Hv;
  destruct Hh as [-> | [-> | ->]];
    unfold deletePhoto, deleteVideoFirst, deleteVideo, try_catch, bind, new_Date;
    (destruct (negb (js_truthy v) || negb (is_string v)); [answered|]);
    try (destruct (prisma_update_found photo _ (clock w) w a Hp)
           as (? & ? & _ & _ & ->); answered);
    try (destruct (prisma_update_found video _ (clock w) w b Hv)
           as (? & ? & _ & _ & ->); answered);
    try (rewrite (prisma_update_missing photo _ (clock w) w Hp); answered);
    try (rewrite (prisma_update_missing video _ (clock w) w Hv); answered).
Qed.

End Answers.

Section RoutedRequests.

Context {codec : JsonCodec}.

Import Router.

Lemma searchVideosByTags_answers v :
  Answers [200; 400; 404; 500] (searchVideosByTags v).
Proof.
  intros w. destruct (negb (js_truthy v) || negb (is_string v)) eqn:E.
  - unfold searchVideosByTags, try_catch.
    destruct (negb (js_truthy v)); [|simpl in E; rewrite E];
      eexists; eexists; (split; [reflexivity|]); simpl; tauto.
  - destruct v as [| | b | n | s | l | l]; simpl in E;
      rewrite ?orb_true_r in E; try discriminate E.
    destruct (JsString.truthy s) eqn:Hs; [|discriminate].
    rewrite searchVideosByTags_valid by exact Hs.
    destruct (fetchAndCache_answers video s (videosTagsKey s)
                (FindMany (WHasSome (tag_list s))) w) as (r & w' & -> & Hin).
    exists r, w'. split; [reflexivity|]. simpl in *. tauto.
Qed.

Lemma listVideosPaged_answers q : Answers [200; 500] (listVideosPaged q).
Proof.
  apply try_next_answers; [simpl; tauto|].
  eapply (yields_bind (fun _ => True)).
  - intros w. unfold promise_all2, prisma_findMany, prisma_count, page_rows.
    destruct (if isFetchAll_of q then None else _) as [[[skip|] [take|]]|];
      try reflexivity; try exact I.
    destruct (negb (is_int64 skip && is_int64 take) || (skip <? 0));
      [reflexivity|]. destruct (0 <=? take); exact I.
  - intros both _. apply yields_ret. simpl. tauto.
Qed.

(** A property of every handler of a route table holds of the handler a
    request reaches. *)
Lemma dispatch_on_all (P : M Response -> Prop) rs req :
  P routeNotFound ->
  Forall (fun r => forall id, P (r_handler r id req)) rs ->
  P (dispatch_on rs req).
Proof.
  intros Hnf Hall. induction Hall as [|r rs Hr Hrs IH]; simpl; [exact Hnf|].
  destruct (method_eqb (r_method r) (method req)); [|exact IH].
  destruct (match_path (r_path r) (path req) VUndefined); [apply Hr | exact IH].
Qed.

Lemma routes_all (P : M Response -> Prop) req :
  (forall v, P (getPhotoById v)) ->
  (forall v, P (searchPhotosByTags v)) ->
  (forall v, P (searchVideosByTags v)) ->
  P listVideos ->
  (forall q, P (listVideosPaged q)) ->
  (forall u c, P (uploadPhoto u c)) ->
  (forall u c, P (uploadVideo u c)) ->
  (forall v, P (deletePhoto v)) ->
  (forall v, P (deleteVideoFirst v)) ->
  (forall v, P (deleteVideo v)) ->
  P routeNotFound ->
  P (dispatch_on routes req).
Proof.
  intros. apply dispatch_on_all; [assumption|].
  unfold routes. repeat constructor; simpl; auto.
Qed.

End RoutedRequests.

(** X5: no error escapes a handler.  Whatever the cache and the store
    answer to its calls, values or errors, a handler ends by sending a
    response, never on an error it did not catch (which would leave the
    request without one), and the status of the response is 200, 201, 400,
    404 or 500.  A call that never settles is outside this statement. *)
Theorem no_error_escapes_a_handler {codec : JsonCodec}
    (req : Router.HttpRequest) (w : World) :
  exists r w',
    Router.dispatch_on Router.routes req w = (Ret r, w')
    /\ In (status r) [200; 201; 400; 404; 500].
Proof.
  revert w. change (Answers [200; 201; 400; 404; 500]
                      (Router.dispatch_on Router.routes req)).
  apply routes_all; intros;
    try (eapply answers_weaken;
         [| first [ apply getPhotoById_answers | apply searchPhotosByTags_answers
                  | apply searchVideosByTags_answers | apply listVideos_answers
                  | apply listVideosPaged_answers | apply uploadPhoto_answers
                  | apply uploadVideo_answers
                  | apply (delete_answers deletePhoto); tauto
                  | apply (delete_answers deleteVideoFirst); tauto
                  | apply (delete_answers deleteVideo); tauto ] ];
         simpl; tauto).
  intros w. eexists; eexists; split; [reflexivity | simpl; tauto].
Qed.

(** X2: GET /v1/videos is always answered by the unfiltered listing:
    whatever the query holds ([tags], [page], [limit], [tag]), the answer
    is every video row with their count, read from the store in one
    [findMany], and the cache is not called. *)
Theorem get_videos_ignores_query {codec : JsonCodec}
    (req : Router.HttpRequest) (w : World)
    (Hmethod : Router.method req = Router.GET)
    (Hpath : Router.path req = ["v1"; "videos"]) :
  Router.dispatch req = Some (Router.dispatch_on Router.routes req)
  /\ Router.dispatch_on Router.routes req w
     = (Ret (res_json (JObj
          [ ("videos", JArr (map asset_json (videoTable w)));
            ("totalVideos", JNum (Z.of_nat (length (videoTable w)))) ])),
        record_call (PrismaFindMany video WAll None) w).
Proof.
  split.
  - unfold Router.dispatch, Router.not_modelled. rewrite Hmethod, Hpath.
    reflexivity.
  - unfold Router.routes. simpl. rewrite Hmethod, Hpath. simpl.
    apply listVideos_all.
Qed.

(** A tag search and a page request on the sample service get the same
    answer: the one video. *)
Lemma get_videos_ignores_query_witness :
  let search := Router.mkRequest Router.GET ["v1"; "videos"] (VString "bird")
                  (mkListQuery None None None) (mkUpload None None None) "c" in
  let page := Router.mkRequest Router.GET ["v1"; "videos"] VUndefined
                (mkListQuery (Some "7") (Some "3") (Some "bird"))
                (mkUpload None None None) "c" in
  fst (Router.dispatch_on Router.routes search Sample.world0)
    = Ret (res_json (JObj [ ("videos", JArr [asset_json Sample.clip]);
                            ("totalVideos", JNum 1) ]))
  /\ Router.dispatch_on Router.routes page Sample.world0
     = Router.dispatch_on Router.routes search Sample.world0.
Proof.
  intros search page.
  destruct (get_videos_ignores_query search Sample.world0 eq_refl eq_refl)
    as [_ Hs].
  destruct (get_videos_ignores_query page Sample.world0 eq_refl eq_refl)
    as [_ Hp].
  rewrite Hs, Hp. split; reflexivity.
Defined.

Lemma dispatch_on_unmatched {codec : JsonCodec} rs (req : Router.HttpRequest) :
  Forall (fun r =>
            Router.method_eqb (Router.r_method r) (Router.method req) = false
            \/ Router.match_path (Router.r_path r) (Router.path req) VUndefined
               = None) rs ->
  Router.dispatch_on rs req = Router.routeNotFound.
Proof.
  intros H. induction H as [|r rs Hr _ IH]; [reflexivity|]. simpl.
  destruct Hr as [-> | Hr]; [exact IH|].
  rewrite Hr. destruct (Router.method_eqb _ _); exact IH.
Qed.

(** X3: a request whose method and path match no registered route is
    answered 404 "Route not found" without any call to the cache or the
    store; this is the case of GET /v1/videos/<id> for every non-empty
    [id] (server.js registers no by-id lookup for videos) and of every PUT
    and PATCH. *)
Theorem unregistered_route_is_not_found {codec : JsonCodec}
    (req : Router.HttpRequest) (w : World)
    (Hmodelled : Router.not_modelled req = false)
    (Hunmatched :
       (Router.method req = Router.GET
        /\ exists id, JsString.truthy id = true
                      /\ Router.path req = ["v1"; "videos"; id])
       \/ Router.method req = Router.PUT
       \/ Router.method req = Router.PATCH) :
  exists h,
    Router.dispatch req = Some h
    /\ h w = (Ret (res_status_json 404 (error_body "Route not found")), w).
Proof.
  exists (Router.dispatch_on Router.routes req). split.
  - unfold Router.dispatch. rewrite Hmodelled. reflexivity.
  - rewrite (dispatch_on_unmatched Router.routes req); [reflexivity|].
    unfold Router.routes.
    destruct Hunmatched as [[Hm [[|c id] [Hid Hp]]] | [Hm | Hm]];
      try discriminate Hid;
      repeat (constructor;
              [first [ left; cbn [Router.r_method]; rewrite Hm; reflexivity
                     | right; cbn [Router.r_path]; rewrite Hp; reflexivity ]|]);
      constructor.
Qed.

(** The by-id lookup of video [v1] on the sample service. *)
Lemma unregistered_route_is_not_found_witness :
  let req := Router.mkRequest Router.GET ["v1"; "videos"; "v1"] VUndefined
               (mkListQuery None None None) (mkUpload None None None) "c" in
  Router.dispatch_on Router.routes req Sample.world0
  = (Ret (res_status_json 404 (error_body "Route not found")), Sample.world0).
Proof.
  intros req.
  destruct (unregistered_route_is_not_found req Sample.world0 eq_refl)
    as (h & Hd & Hh).
  - left. split; [reflexivity | exists "v1"; split; reflexivity].
  - injection Hd as <-. exact Hh.
Defined.

Section ValidIds.

Context {codec : JsonCodec}.

Lemma delete_valid_answers (h : JsValue -> M Response) s :
  h = deletePhoto \/ h = deleteVideoFirst \/ h = deleteVideo ->
  JsString.truthy s = true ->
  Answers [200; 404] (h (VString s)).
Proof.
  intros Hh Hs w.
  destruct (find_by_id s (photoTable w)) as [a|] eqn:Hp;
  destruct (find_by_id s (videoTable w)) as [b|] eqn:Hv;
  destruct Hh as [-> | [-> | ->]];
    unfold deletePhoto, deleteVideoFirst, deleteVideo, try_catch, bind, new_Date;
    simpl; rewrite Hs; simpl;
    try (destruct (prisma_update_found photo s (clock w) w a Hp)
           as (? & ? & _ & _ & ->);
         eexists; eexists; (split; [reflexivity|]); simpl; tauto);
    try (destruct (prisma_update_found video s (clock w) w b Hv)
           as (? & ? & _ & _ & ->);
         eexists; eexists; (split; [reflexivity|]); simpl; tauto);
    try (rewrite (prisma_update_missing photo s (clock w) w Hp);
         eexists; eexists; (split; [reflexivity|]); simpl; tauto);
    try (rewrite (prisma_update_missing video s (clock w) w Hv);
         eexists; eexists; (split; [reflexivity|]); simpl; tauto).
Qed.

End ValidIds.

(** X4: on the routes with an [:id] parameter the handler is given the
    path segment, a non-empty string, so its test of the id passes: GET
    /v1/photos/:id is the read-through lookup of that id, answered 200,
    404 or 500, and the two DELETE routes are answered 200 or 404; none
    of them answers 400. *)
Theorem routed_id_passes_validation {codec : JsonCodec}
    (req : Router.HttpRequest) (kind id : string) (w : World)
    (Hkind : kind = "photos" \/ kind = "videos")
    (Hpath : Router.path req = ["v1"; kind; id])
    (Hid : JsString.truthy id = true) :
  (Router.method req = Router.GET -> kind = "photos" ->
     Router.dispatch_on Router.routes req w
     = fetchAndCache photo id (photoIdKey id) (FindUnique id) w
     /\ exists r w', fetchAndCache photo id (photoIdKey id) (FindUnique id) w
                      = (Ret r, w') /\ In (status r) [200; 404; 500])
  /\ (Router.method req = Router.DELETE ->
      exists r w', Router.dispatch_on Router.routes req w = (Ret r, w')
                   /\ In (status r) [200; 404]).
Proof.
  split.
  - intros Hm ->. split.
    + unfold Router.routes. simpl. rewrite Hm, Hpath. simpl. rewrite Hid.
      apply getPhotoById_valid, Hid.
    + apply fetchAndCache_answers.
  - intros Hm. unfold Router.routes. simpl. rewrite Hm, Hpath. simpl.
    destruct Hkind as [-> | ->]; simpl; rewrite Hid.
    + apply (delete_valid_answers deletePhoto); tauto.
    + apply (delete_valid_answers deleteVideoFirst); tauto.
Qed.

(** Photo [p1] of the sample service, looked up and then deleted through
    the router. *)
Lemma routed_id_passes_validation_witness :
  let get := Router.mkRequest Router.GET ["v1"; "photos"; "p1"] VUndefined
               (mkListQuery None None None) (mkUpload None None None) "c" in
  let del := Router.mkRequest Router.DELETE ["v1"; "photos"; "p1"] VUndefined
               (mkListQuery None None None) (mkUpload None None None) "c" in
  Router.dispatch_on Router.routes get Sample.world0
    = fetchAndCache photo "p1" (photoIdKey "p1") (FindUnique "p1") Sample.world0
  /\ exists r w', Router.dispatch_on Router.routes del Sample.world0 = (Ret r, w')
                   /\ In (status r) [200; 404].
Proof.
  intros get del.
  destruct (routed_id_passes_validation get "photos" "p1" Sample.world0
              (or_introl eq_refl) eq_refl eq_refl) as [Hg _].
  destruct (routed_id_passes_validation del "photos" "p1" Sample.world0
              (or_introl eq_refl) eq_refl eq_refl) as [_ Hd].
  split; [apply (Hg eq_refl eq_refl) | apply (Hd eq_refl)].
Defined.

(** * Invariants of the service *)

Section Invariants.

Context {codec : JsonCodec}.

Import Router.

Lemma dispatch_step req h w :
  dispatch req = Some h -> WorldStep w (snd (h w)).
Proof.
  unfold dispatch. destruct (not_modelled req); [discriminate|].
  intros E. apply (inj Some) in E. subst h. revert w.
  apply (routes_all (fun h => forall w, WorldStep w (snd (h w))));
    intros; auto using getPhotoById_step, searchPhotosByTags_step,
      searchVideosByTags_step, listVideos_step, listVideosPaged_step,
      uploadPhoto_step, uploadVideo_step.
  - apply (delete_step deletePhoto); tauto.
  - apply (delete_step deleteVideoFirst); tauto.
  - apply (delete_step deleteVideo); tauto.
  - apply world_step_calls; reflexivity.
Qed.

(** A property kept by every step of a request and by the passing of
    time is kept by every sequence of requests. *)
Lemma serve_invariant (P : World -> Prop) (D : Z -> Prop) :
  (forall w w', P w -> WorldStep w w' -> P w') ->
  (forall d w, D d -> P w -> P (advance d w)) ->
  forall reqs w,
    Forall (fun p => D (fst p)) reqs -> P w -> P (serve reqs w).
Proof.
  intros Hstep Htime reqs.
  induction reqs as [|[d req] reqs IH]; intros w Hall HP; [exact HP|].
  inversion Hall as [|? ? Hd Hrest]; subst. simpl in Hd. simpl.
  destruct (dispatch req) as [h|] eqn:E.
  - apply IH; [exact Hrest|].
    apply (Hstep (advance d w)); [apply Htime; assumption|].
    apply (dispatch_step req h _ E).
  - apply IH; [exact Hrest | apply Htime; assumption].
Qed.

Lemma Forall_any {A} (l : list A) : Forall (fun _ => True) l.
Proof. induction l; constructor; auto. Qed.

Lemma table_step_length cap now t t' :
  TableStep cap now t t' -> (length t <= cap)%nat -> (length t' <= cap)%nat.
Proof.
  intros [-> | [(a & -> & _ & Hlt & _) | (pre & a & post & -> & _ & ->)]] H.
  - exact H.
  - rewrite length_app. simpl. lia.
  - rewrite length_app in *. simpl in *. exact H.
Qed.

Lemma find_by_id_none id t :
  find_by_id id t = None -> ~ In id (map aid t).
Proof.
  unfold find_by_id. induction t as [|a r IH]; simpl; [tauto|].
  destruct (String.eqb (aid a) id) eqn:E; [discriminate|].
  intros H [Ha | Hr]; [|exact (IH H Hr)].
  apply String.eqb_neq in E. congruence.
Qed.

Lemma table_step_ids cap now t t' :
  TableStep cap now t t' -> NoDup (map aid t) -> NoDup (map aid t').
Proof.
  intros [-> | [(a & -> & Hfresh & _) | (pre & a & post & -> & _ & ->)]] H.
  - exact H.
  - rewrite map_app. simpl.
    apply NoDup_app. split; [exact H|]. split.
    + intros x Hx Hin. apply list_elem_of_singleton in Hin. subst x.
      apply list_elem_of_In in Hx. exact (find_by_id_none _ _ Hfresh Hx).
    + apply NoDup_singleton.
  - rewrite map_app in *. exact H.
Qed.

Lemma find_by_id_app_l id pre post a :
  find_by_id id pre = Some a -> find_by_id id (pre ++ post) = Some a.
Proof.
  unfold find_by_id. induction pre as [|b r IH]; simpl; [discriminate|].
  destruct (String.eqb (aid b) id); [auto | exact IH].
Qed.

(** What a row keeps through a step: the fields set at creation, and its
    being a tombstone. *)
Lemma table_step_row cap now t t' id a :
  TableStep cap now t t' -> find_by_id id t = Some a ->
  exists a', find_by_id id t' = Some a'
             /\ aid a' = aid a /\ url a' = url a /\ tags a' = tags a
             /\ title a' = title a /\ createdAt a' = createdAt a
             /\ (deletedAt a <> None -> deletedAt a' <> None).
Proof.
  intros [-> | [(x & -> & _) | (pre & b & post & -> & Hpre & ->)]] Hf.
  - exists a. auto 10.
  - exists a. split; [apply find_by_id_app_l, Hf | auto 10].
  - destruct (find_by_id id pre) as [c|] eqn:Hc.
    + rewrite (find_by_id_app_l _ _ _ _ Hc) in Hf. injection Hf as ->.
      exists a. split; [apply find_by_id_app_l, Hc | auto 10].
    + rewrite (find_by_id_app _ _ _ Hc) in Hf.
      rewrite (find_by_id_app _ _ _ Hc).
      unfold find_by_id in Hf |- *. simpl in Hf |- *.
      destruct (String.eqb (aid b) id).
      * injection Hf as ->. eexists. split; [reflexivity|].
        simpl. repeat split; auto; try discriminate.
      * exists a. auto 10.
Qed.

End Invariants.

(** X6: the ceilings hold along every sequence of requests served one
    after the other: a service that starts with at most 50 photos and at
    most 20 videos never holds more. *)
Theorem capacity_is_never_exceeded {codec : JsonCodec}
    (reqs : list (Z * Router.HttpRequest)) (w : World)
    (Hphotos : (length (photoTable w) <= 50)%nat)
    (Hvideos : (length (videoTable w) <= 20)%nat) :
  (length (photoTable (Router.serve reqs w)) <= 50)%nat
  /\ (length (videoTable (Router.serve reqs w)) <= 20)%nat.
Proof.
  apply (serve_invariant
           (fun w => (length (photoTable w) <= 50)%nat
                     /\ (length (videoTable w) <= 20)%nat)
           (fun _ => True)); auto using Forall_any.
  intros w0 w' [Hp Hv] Hs. destruct Hs as [_ _ _ Sp Sv].
  split; eauto using table_step_length.
Qed.

(** X7: identifiers stay unique in each table along every sequence of
    requests. *)
Theorem ids_stay_unique {codec : JsonCodec}
    (reqs : list (Z * Router.HttpRequest)) (w : World)
    (Hphotos : NoDup (map aid (photoTable w)))
    (Hvideos : NoDup (map aid (videoTable w))) :
  NoDup (map aid (photoTable (Router.serve reqs w)))
  /\ NoDup (map aid (videoTable (Router.serve reqs w))).
Proof.
  apply (serve_invariant
           (fun w => NoDup (map aid (photoTable w))
                     /\ NoDup (map aid (videoTable w)))
           (fun _ => True)); auto using Forall_any.
  intros w0 w' [Hp Hv] Hs. destruct Hs as [_ _ _ Sp Sv].
  split; eauto using table_step_ids.
Qed.

(** X8: no cache entry lives longer than 3600 seconds: along every
    sequence of requests (time not running backwards), an entry of the
    cache expires at most 3600 seconds after the present. *)
Theorem cache_entries_expire_within_ttl {codec : JsonCodec}
    (reqs : list (Z * Router.HttpRequest)) (w : World)
    (Htime : Forall (fun p => 0 <= fst p) reqs)
    (Hstart : forall k v e, cache w !! k = Some (v, e) -> e <= clock w + 3600) :
  forall k v e,
    cache (Router.serve reqs w) !! k = Some (v, e) ->
    e <= clock (Router.serve reqs w) + 3600.
Proof.
  apply (serve_invariant
           (fun w => forall k v e, cache w !! k = Some (v, e) -> e <= clock w + 3600)
           (fun d => 0 <= d)); auto.
  - intros w0 w' H Hs k v e. destruct Hs as [Hc _ Hk _ _]. rewrite Hc.
    destruct Hk as [-> | (k0 & v0 & ->)]; [apply H|].
    destruct (decide (k0 = k)) as [-> | Hne].
    + rewrite lookup_insert_eq. intros [= _ <-]. lia.
    + rewrite lookup_insert_ne by exact Hne. apply H.
  - intros d w0 Hd H k v e He. simpl in *. specialize (H k v e He). lia.
Qed.

(** X9: a row is never removed and what it was created with never
    changes: along every sequence of requests, a record present at the
    start is still found under its id with the same [url], [tags], [title]
    and [createdAt], and once soft deleted it stays so. *)
Theorem rows_are_kept {codec : JsonCodec}
    (reqs : list (Z * Router.HttpRequest)) (w : World)
    (m : Model) (id : string) (a : Asset)
    (Hrow : find_by_id id (table m w) = Some a) :
  exists a',
    find_by_id id (table m (Router.serve reqs w)) = Some a'
    /\ aid a' = aid a /\ url a' = url a /\ tags a' = tags a
    /\ title a' = title a /\ createdAt a' = createdAt a
    /\ (deletedAt a <> None -> deletedAt a' <> None).
Proof.
  apply (serve_invariant
           (fun w => exists a',
                find_by_id id (table m w) = Some a'
                /\ aid a' = aid a /\ url a' = url a /\ tags a' = tags a
                /\ title a' = title a /\ createdAt a' = createdAt a
                /\ (deletedAt a <> None -> deletedAt a' <> None))
           (fun _ => True)); auto using Forall_any.
  - intros w0 w' (b & Hb & H1 & H2 & H3 & H4 & H5 & H6) Hs.
    destruct Hs as [_ _ _ Sp Sv].
    assert (St : exists cap, TableStep cap (clock w0) (table m w0) (table m w'))
      by (destruct m; eauto).
    destruct St as [cap St].
    destruct (table_step_row cap _ _ _ id b St Hb)
      as (c & Hc & G1 & G2 & G3 & G4 & G5 & G6).
    exists c. repeat split; try congruence. auto.
  - exists a. auto 10.
Qed.

(** The sample run keeps the four invariants. *)
Lemma capacity_is_never_exceeded_witness :
  (length (photoTable (Router.serve SampleRun.requests Sample.world0)) <= 50)%nat
  /\ (length (videoTable (Router.serve SampleRun.requests Sample.world0)) <= 20)%nat.
Proof.
  apply (capacity_is_never_exceeded SampleRun.requests Sample.world0);
    simpl; lia.
Defined.

Lemma ids_stay_unique_witness :
  NoDup (map aid (photoTable (Router.serve SampleRun.requests Sample.world0)))
  /\ NoDup (map aid (videoTable (Router.serve SampleRun.requests Sample.world0))).
Proof.
  apply (ids_stay_unique SampleRun.requests Sample.world0);
    apply (bool_decide_unpack _); vm_compute; exact I.
Defined.

Lemma cache_entries_expire_within_ttl_witness :
  let w := Router.serve SampleRun.requests Sample.world0 in
  match cache w !! photosTagsKey "pet" with
  | Some (_, expiry) => expiry <= clock w + 3600
  | None => False
  end.
Proof.
  intros w. destruct (cache w !! photosTagsKey "pet") as [[v e]|] eqn:E.
  - revert E. apply (cache_entries_expire_within_ttl SampleRun.requests
                       Sample.world0).
    + repeat constructor; simpl; lia.
    + intros k v0 e0 H. simpl in H. rewrite lookup_empty in H. discriminate H.
  - vm_compute in E. discriminate E.
Defined.

Lemma rows_are_kept_witness :
  exists a',
    find_by_id "p1" (table photo (Router.serve SampleRun.requests Sample.world0))
      = Some a'
    /\ aid a' = aid Sample.cat /\ url a' = url Sample.cat
    /\ tags a' = tags Sample.cat /\ title a' = title Sample.cat
    /\ createdAt a' = createdAt Sample.cat
    /\ (deletedAt Sample.cat <> None -> deletedAt a' <> None).
Proof.
  apply (rows_are_kept SampleRun.requests Sample.world0 photo "p1" Sample.cat).
  reflexivity.
Defined.

Example sample_run_outcome :
  let w := Router.serve SampleRun.requests Sample.world0 in
  map aid (photoTable w) = ["p1"; "p2"; "cnew"]
  /\ map deletedAt (photoTable w) = [Some 1735233625; None; None]
  /\ clock w = 1735233625.
Proof. vm_compute. auto. Qed.

(** * The life of a cache entry *)

(** X10: what a miss has written is served for exactly 3600 seconds.
    After a miss that found a result (with a codec that reads back what
    it writes), the same request is answered from the cache, with the
    same body and without a store query, as long as less than 3600
    seconds have passed; from 3600 seconds on it misses and queries the
    store again. *)
Theorem cached_answer_lifetime {codec : JsonCodec}
    (m : Model) (i k : string) (q : PrismaQuery) (w : World)
    (Hup : health w = Healthy)
    (Hmiss : truthy_data (cache_lookup k w) = false)
    (Hfound : no_result (run_query m q w) = false)
    (Hcodec : JSON_parse (JSON_stringify (result_json (run_query m q w)))
              = Some (result_json (run_query m q w)))
    (Hnonempty : JsString.truthy (JSON_stringify (result_json (run_query m q w)))
                 = true) :
  let v := result_json (run_query m q w) in
  let w1 := snd (fetchAndCache m i k q w) in
  fst (fetchAndCache m i k q w) = Ret (res_json v)
  /\ (forall d, 0 <= d < 3600 ->
        fetchAndCache m i k q (advance d w1)
        = (Ret (res_json v), record_call (RedisGet k) (advance d w1)))
  /\ (forall d, 3600 <= d ->
        exists rest,
          calls (snd (fetchAndCache m i k q (advance d w1)))
          = calls w1 ++ RedisGet k :: query_call m q :: rest).
Proof.
  intros v w1.
  pose proof (fetch_miss_some m i k q w Hup Hmiss Hfound) as E.
  cbv zeta in E. fold v in E.
  assert (Ew : w1 = snd (fetchAndCache m i k q w)) by reflexivity.
  rewrite E in Ew |- *. simpl in Ew.
  split; [reflexivity|].
  assert (Hh : forall d msg, health (advance d w1) <> Unreachable msg).
  { intros d msg. rewrite Ew. simpl. rewrite Hup. discriminate. }
  assert (Hl : forall d, cache_lookup k (advance d w1)
                         = if clock w + d <? clock w + 3600
                           then Some (JSON_stringify v) else None).
  { intros d. unfold cache_lookup. rewrite Ew. simpl.
    rewrite lookup_insert_eq. reflexivity. }
  split.
  - intros d [Hd0 Hd].
    rewrite (fetch_hit m i k q (advance d w1) (JSON_stringify v)); auto.
    + unfold v. rewrite Hcodec. reflexivity.
    + rewrite Hl. destruct (Z.ltb_spec (clock w + d) (clock w + 3600)); [reflexivity | lia].
  - intros d Hd.
    assert (Hm : truthy_data (cache_lookup k (advance d w1)) = false).
    { rewrite Hl. destruct (Z.ltb_spec (clock w + d) (clock w + 3600)); [lia | reflexivity]. }
    destruct (no_result (run_query m q (advance d w1))) eqn:Hn.
    + rewrite fetch_miss_none; auto. simpl. rewrite <- app_assoc. eauto.
    + rewrite fetch_miss_some; auto.
      * simpl. rewrite <- !app_assoc. eauto.
      * rewrite Ew. exact Hup.
Qed.

(** Photo [p1] of the sample service: read from the store, then from the
    cache 3599 seconds later, and from the store again at 3600. *)
Lemma cached_answer_lifetime_witness :
  let fetch := fetchAndCache photo "p1" (photoIdKey "p1") (FindUnique "p1") in
  let w1 := snd (fetch Sample.world0) in
  fetch (advance 3599 w1)
    = (Ret (res_json (asset_json Sample.cat)),
       record_call (RedisGet (photoIdKey "p1")) (advance 3599 w1))
  /\ exists rest,
       calls (snd (fetch (advance 3600 w1)))
       = calls w1 ++ RedisGet (photoIdKey "p1") :: PrismaFindUnique photo "p1" :: rest.
Proof.
  intros fetch w1.
  destruct (cached_answer_lifetime photo "p1" (photoIdKey "p1") (FindUnique "p1")
              Sample.world0 eq_refl eq_refl eq_refl)
    as (_ & Hhit & Hexp).
  - vm_compute. reflexivity.
  - vm_compute. reflexivity.
  - split; [apply (Hhit 3599); lia | apply (Hexp 3600); lia].
Defined.

(** X11: an entry whose text does not parse poisons its key: while it
    lives, the request is answered 500 without asking the store, and the
    entry is left in place. *)
Theorem unparsable_entry_fails_until_expiry {codec : JsonCodec}
    (m : Model) (i k : string) (q : PrismaQuery) (w : World)
    (data : string) (expiry : Z)
    (Hup : forall msg, health w <> Unreachable msg)
    (Hentry : cache w !! k = Some (data, expiry))
    (Hnonempty : JsString.truthy data = true)
    (Hbad : JSON_parse data = None) :
  forall d, 0 <= d -> clock w + d < expiry ->
    exists r,
      fetchAndCache m i k q (advance d w)
      = (Ret r, record_call (RedisGet k) (advance d w))
      /\ status r = 500.
Proof.
  intros d Hd Hlt.
  rewrite (fetch_hit m i k q (advance d w) data); auto.
  - rewrite Hbad. eexists. split; reflexivity.
  - unfold cache_lookup. simpl. rewrite Hentry.
    destruct (Z.ltb_spec (clock w + d) expiry); [reflexivity | lia].
Qed.

(** The key of photo [p1] holding a text that is not JSON. *)
Lemma unparsable_entry_fails_until_expiry_witness :
  let w := set_cache (<[photoIdKey "p1" := ("photo p1", 1735233600)]> ∅)
                     Sample.world0 in
  exists r,
    fetchAndCache photo "p1" (photoIdKey "p1") (FindUnique "p1") (advance 60 w)
    = (Ret r, record_call (RedisGet (photoIdKey "p1")) (advance 60 w))
    /\ status r = 500.
Proof.
  intros w.
  apply (unparsable_entry_fails_until_expiry photo "p1" (photoIdKey "p1")
           (FindUnique "p1") w "photo p1" 1735233600).
  - intros msg. discriminate.
  - apply lookup_insert_eq.
  - reflexivity.
  - vm_compute. reflexivity.
  - lia.
  - simpl. lia.
Defined.

Section TagOrder.

Context {codec : JsonCodec}.

Lemma matches_hasSome_ext l1 l2 a :
  (forall x, In x l1 <-> In x l2) ->
  matches (WHasSome l1) a = matches (WHasSome l2) a.
Proof.
  intros H. simpl. apply Bool.eq_iff_eq_true. rewrite !existsb_exists.
  split; intros (x & Hx & Ht); exists x; split; auto; apply H; exact Hx.
Qed.

Lemma filter_hasSome_ext l1 l2 t :
  (forall x, In x l1 <-> In x l2) ->
  List.filter (matches (WHasSome l1)) t = List.filter (matches (WHasSome l2)) t.
Proof.
  intros H. apply List.filter_ext. intros a. apply matches_hasSome_ext, H.
Qed.

(** The answer of a read-through query on a miss, by the state of the
    cache backend. *)
Lemma fetch_miss_answer m i k q w :
  truthy_data (cache_lookup k w) = false ->
  fst (fetchAndCache m i k q w)
  = match health w with
    | Unreachable msg => Ret (errorHandler (redis_error msg))
    | ReadOnly msg =>
        if no_result (run_query m q w)
        then Ret (res_status_json 404 (error_body (model_name m +:+ " not found")))
        else Ret (errorHandler (redis_error msg))
    | Healthy =>
        if no_result (run_query m q w)
        then Ret (res_status_json 404 (error_body (model_name m +:+ " not found")))
        else Ret (res_json (result_json (run_query m q w)))
    end.
Proof.
  intros Hc. destruct (health w) as [| msg | msg] eqn:Hh.
  - destruct (no_result (run_query m q w)) eqn:Hn.
    + rewrite fetch_miss_none; auto. intros ?; congruence.
    + rewrite fetch_miss_some; auto.
  - destruct (no_result (run_query m q w)) eqn:Hn.
    + rewrite fetch_miss_none; auto. intros ?; congruence.
    + rewrite (fetch_miss_readonly m i k q w msg); auto.
  - rewrite (fetch_unreachable m i k q w msg); auto.
Qed.

End TagOrder.

(** X12: the store's answer to a tag search depends on the set of tags
    only: two tag queries holding the same tags, in any order and with
    any repetition, that both miss the cache are given the same answer. *)
Theorem tag_search_answer_ignores_order {codec : JsonCodec}
    (t1 t2 : string) (w : World)
    (Hvalid1 : JsString.truthy t1 = true)
    (Hvalid2 : JsString.truthy t2 = true)
    (Hsame : forall x, In x (tag_list t1) <-> In x (tag_list t2)) :
  (truthy_data (cache_lookup (photosTagsKey t1) w) = false ->
   truthy_data (cache_lookup (photosTagsKey t2) w) = false ->
   fst (searchPhotosByTags (VString t1) w) = fst (searchPhotosByTags (VString t2) w))
  /\ (truthy_data (cache_lookup (videosTagsKey t1) w) = false ->
      truthy_data (cache_lookup (videosTagsKey t2) w) = false ->
      fst (searchVideosByTags (VString t1) w) = fst (searchVideosByTags (VString t2) w)).
Proof.
  split; intros H1 H2.
  - rewrite !searchPhotosByTags_valid by assumption.
    rewrite !fetch_miss_answer by assumption. simpl.
    rewrite (filter_hasSome_ext _ _ _ Hsame). reflexivity.
  - rewrite !searchVideosByTags_valid by assumption.
    rewrite !fetch_miss_answer by assumption. simpl.
    rewrite (filter_hasSome_ext _ _ _ Hsame). reflexivity.
Qed.

(** [pet,cat] and [cat, pet ,cat] on the sample service. *)
Lemma tag_search_answer_ignores_order_witness :
  fst (searchPhotosByTags (VString "pet,cat") Sample.world0)
    = fst (searchPhotosByTags (VString "cat, pet ,cat") Sample.world0)
  /\ photosTagsKey "pet,cat" <> photosTagsKey "cat, pet ,cat".
Proof.
  split.
  - apply (tag_search_answer_ignores_order "pet,cat" "cat, pet ,cat"
             Sample.world0 eq_refl eq_refl); try reflexivity.
    intros x. simpl. tauto.
  - vm_compute. discriminate.
Defined.

(** * Pages *)

Section Pages.





End Pages.



Section ListingQuery.

Context {codec : JsonCodec}.

(** The paged listing reads its query through the four derived values
    only. *)
Lemma listVideosPaged_ext q1 q2 :
  currentPage_of q1 = currentPage_of q2 -> pageSize_of q1 = pageSize_of q2 ->
  where_of q1 = where_of q2 -> isFetchAll_of q1 = isFetchAll_of q2 ->
  listVideosPaged q1 = listVideosPaged q2.
Proof.
  intros H1 H2 H3 H4. unfold listVideosPaged. rewrite H1, H2, H3, H4.
  reflexivity.
Qed.

End ListingQuery.

(** X14: how the paged listing reads its query: an absent [limit] is a
    page size of 10 (not "all rows"); an empty [limit] is the same as
    [limit=0], all rows; a [page] that is not a number or not positive is
    page 1; an empty [tag] is no tag filter. *)
Theorem listing_query_defaults {codec : JsonCodec}
    (page limit tag : option string) :
  listVideosPaged (mkListQuery page None tag)
    = listVideosPaged (mkListQuery page (Some "10") tag)
  /\ listVideosPaged (mkListQuery page (Some EmptyString) tag)
     = listVideosPaged (mkListQuery page (Some "0") tag)
  /\ listVideosPaged (mkListQuery None limit tag)
     = listVideosPaged (mkListQuery (Some "1") limit tag)
  /\ (forall s,
        JsString.parseInt s = None
        \/ (exists k, JsString.parseInt s = Some k /\ k <= 0) ->
        listVideosPaged (mkListQuery (Some s) limit tag)
        = listVideosPaged (mkListQuery (Some "1") limit tag))
  /\ listVideosPaged (mkListQuery page limit (Some EmptyString))
     = listVideosPaged (mkListQuery page limit None).
Proof.
  split; [|split; [|split; [|split]]].
  - apply listVideosPaged_ext; reflexivity.
  - reflexivity.
  - apply listVideosPaged_ext; reflexivity.
  - intros s Hs. apply listVideosPaged_ext; try reflexivity.
    unfold currentPage_of. simpl q_page.
    destruct Hs as [-> | (k & -> & Hk)]; [reflexivity|].
    destruct (Z.ltb_spec 0 k); [lia | reflexivity].
  - apply listVideosPaged_ext; reflexivity.
Qed.

(** The pages [abc], [0] and [-2] on 25 videos are page 1. *)
Lemma listing_query_defaults_witness :
  listVideosPaged (mkListQuery (Some "abc") None None)
    = listVideosPaged (mkListQuery (Some "1") None None)
  /\ listVideosPaged (mkListQuery (Some "0") (Some "5") None)
     = listVideosPaged (mkListQuery (Some "1") (Some "5") None)
  /\ listVideosPaged (mkListQuery (Some "-2") None (Some "pet"))
     = listVideosPaged (mkListQuery (Some "1") None (Some "pet")).
Proof.
  destruct (listing_query_defaults None None None) as (_ & _ & _ & H1 & _).
  destruct (listing_query_defaults None (Some "5") None) as (_ & _ & _ & H2 & _).
  destruct (listing_query_defaults None None (Some "pet")) as (_ & _ & _ & H3 & _).
  split; [apply H1; left; reflexivity|].
  split; [apply H2; right; exists 0; split; [reflexivity | lia]|].
  apply H3. right. exists (-2). split; [reflexivity | lia].
Defined.

(** X15: a listing that matches no row is a success with an empty list,
    where a tag search is a 404: the paged listing answers 200 with
    [videos] empty, [totalVideos] 0 and [totalPages] 0 (1 with limit 0),
    for every positive limit and page whose product stays within
    [2 ^ 53], and the unfiltered listing of an empty table answers 200
    with an empty list. *)
Theorem empty_listing_is_a_success {codec : JsonCodec}
    (q : ListQuery) (w : World)
    (Hnone : rows_tagged (q_tag q) (videoTable w) = []) :
  (forall n, pageSize_of q = Some n -> 0 < n ->
     currentPage_of q * n <= 2 ^ 53 ->
     fst (listVideosPaged q w)
     = Ret (res_json (JObj
         [ ("videos", JArr []);
           ("totalVideos", JNum 0);
           ("totalPages", JNum 0);
           ("currentPage", JNum (currentPage_of q));
           ("hasNextPage", JBool false);
           ("hasPreviousPage", JBool (1 <? currentPage_of q)) ])))
  /\ (isFetchAll_of q = true ->
      fst (listVideosPaged q w)
      = Ret (res_json (JObj
          [ ("videos", JArr []);
            ("totalVideos", JNum 0);
            ("totalPages", JNum 1);
            ("currentPage", JNull);
            ("hasNextPage", JBool false);
            ("hasPreviousPage", JBool false) ])))
  /\ (videoTable w = [] ->
      fst (listVideos w)
      = Ret (res_json (JObj [ ("videos", JArr []); ("totalVideos", JNum 0) ]))).
Proof.
  split; [|split].
  - intros n Hps Hn Hexact.
    rewrite (listVideosPaged_page q w n Hps Hn Hexact).
    rewrite rows_tagged_where, Hnone.
    cbn [length fst order_by_id fold_right]. change (Z.of_nat 0) with 0.
    assert (E : (0 + n - 1) / n = 0) by (apply Z.div_small; lia).
    rewrite E, skipn_nil, firstn_nil.
    pose proof (currentPage_positive q) as Hp.
    destruct (Z.ltb_spec (currentPage_of q) 0); [lia | reflexivity].
  - intros Hall. rewrite (listVideosPaged_all q w Hall).
    cbv zeta. rewrite rows_tagged_where, Hnone. reflexivity.
  - intros Hempty. rewrite listVideos_all, Hempty. reflexivity.
Qed.

(** The sample service has no video tagged [bird], and a service without
    videos lists none. *)
Lemma empty_listing_is_a_success_witness :
  fst (listVideosPaged (mkListQuery None None (Some "bird")) Sample.world0)
    = Ret (res_json (JObj
        [ ("videos", JArr []);
          ("totalVideos", JNum 0);
          ("totalPages", JNum 0);
          ("currentPage", JNum 1);
          ("hasNextPage", JBool false);
          ("hasPreviousPage", JBool false) ]))
  /\ fst (listVideos (SampleUpload.holding 2 0))
     = Ret (res_json (JObj [ ("videos", JArr []); ("totalVideos", JNum 0) ])).
Proof.
  destruct (empty_listing_is_a_success (mkListQuery None None (Some "bird"))
              Sample.world0 eq_refl) as (H1 & _ & _).
  destruct (empty_listing_is_a_success (mkListQuery None None None)
              (SampleUpload.holding 2 0) eq_refl) as (_ & _ & H3).
  split; [apply (H1 10 eq_refl eq_refl); vm_compute; discriminate
         | exact (H3 eq_refl)].
Defined.

(** * Uploads: what is refused, and how *)

(** X16: an upload without a file, or with a file and no (or empty) tags,
    is refused 400 before the store is asked anything: no count query is
    made, whatever the number of rows, and the world is left as it was. *)
Theorem upload_is_validated_before_the_store {codec : JsonCodec}
    (req : UploadRequest) (cuid : string) (w : World) :
  (u_file req = None ->
     uploadPhoto req cuid w
       = (Ret (res_status_json 400 (error_body "Photo file is required")), w)
     /\ uploadVideo req cuid w
        = (Ret (res_status_json 400 (error_body "Video file is required")), w))
  /\ (forall filename,
        u_file req = Some filename ->
        u_tags req = None \/ u_tags req = Some EmptyString ->
        uploadPhoto req cuid w
          = (Ret (res_status_json 400 (error_body "Tags are required")), w)
        /\ uploadVideo req cuid w
           = (Ret (res_status_json 400 (error_body "Tags are required")), w)).
Proof.
  split.
  - intros Hf. unfold uploadPhoto, uploadVideo, try_catch. rewrite Hf. auto.
  - intros filename Hf Ht.
    assert (E : field_truthy (u_tags req) = false)
      by (destruct Ht as [-> | ->]; reflexivity).
    unfold uploadPhoto, uploadVideo, try_catch. rewrite Hf, E. auto.
Qed.

(** An upload without file against a full service, and one without tags. *)
Lemma upload_is_validated_before_the_store_witness :
  uploadPhoto (mkUpload None (Some "x") None) "c" (SampleUpload.holding 50 20)
    = (Ret (res_status_json 400 (error_body "Photo file is required")),
       SampleUpload.holding 50 20)
  /\ uploadVideo (mkUpload (Some "clip.mp4") None None) "c" Sample.world0
     = (Ret (res_status_json 400 (error_body "Tags are required")), Sample.world0).
Proof.
  destruct (upload_is_validated_before_the_store (mkUpload None (Some "x") None)
              "c" (SampleUpload.holding 50 20)) as [H1 _].
  destruct (upload_is_validated_before_the_store
              (mkUpload (Some "clip.mp4") None None) "c" Sample.world0)
    as [_ H2].
  split; [apply (H1 eq_refl) | apply (H2 "clip.mp4" eq_refl)]. left; reflexivity.
Defined.





(** * Deleting twice, and uploads against a cached search *)

(** X19: the soft delete does not look at [deletedAt]: deleting a photo
    that is already deleted is a success again, and moves [deletedAt] and
    [updatedAt] to the time of the later request, so the time of the
    first delete is lost. *)
Theorem second_delete_moves_the_tombstone {codec : JsonCodec}
    (s : string) (w : World) (a : Asset) (d : Z)
    (Hs : JsString.truthy s = true)
    (Hrow : find_by_id s (photoTable w) = Some a) :
  let w1 := snd (deletePhoto (VString s) w) in
  let later := mkAsset (aid a) (url a) (tags a) (Some (clock w + d)) (title a)
                       (createdAt a) (clock w + d) in
  find_by_id s (photoTable w1)
    = Some (mkAsset (aid a) (url a) (tags a) (Some (clock w)) (title a)
                    (createdAt a) (clock w))
  /\ fst (deletePhoto (VString s) (advance d w1)) = Ret (res_json (asset_json later))
  /\ find_by_id s (photoTable (snd (deletePhoto (VString s) (advance d w1))))
     = Some later.
Proof.
  intros w1 later.
  destruct (deletePhoto_found s w a Hs Hrow) as (pre & post & Ht & Hpre & E1).
  assert (Ea : String.eqb (aid a) s = true) by exact (find_by_id_some _ _ _ Hrow).
  assert (F1 : find_by_id s (photoTable w1) = Some (mark_deleted (clock w) (clock w) a)).
  { unfold w1. rewrite E1. simpl. rewrite (find_by_id_app _ _ _ Hpre).
    unfold find_by_id. simpl. rewrite Ea. reflexivity. }
  split; [exact F1|].
  assert (F1' : find_by_id s (photoTable (advance d w1))
                = Some (mark_deleted (clock w) (clock w) a)) by exact F1.
  destruct (deletePhoto_found s (advance d w1) _ Hs F1')
    as (pre2 & post2 & Ht2 & Hpre2 & E2).
  assert (Ec : clock (advance d w1) = clock w + d)
    by (unfold w1; rewrite E1; reflexivity).
  rewrite E2, Ec. split; [reflexivity|].
  simpl. rewrite (find_by_id_app _ _ _ Hpre2).
  unfold find_by_id. simpl. rewrite Ea. reflexivity.
Qed.

(** Photo [p1] deleted at 1735230000 and again 500 seconds later. *)
Lemma second_delete_moves_the_tombstone_witness :
  let w1 := snd (deletePhoto (VString "p1") Sample.world0) in
  map deletedAt (photoTable w1) = [Some 1735230000; None]
  /\ map deletedAt (photoTable (snd (deletePhoto (VString "p1") (advance 500 w1))))
     = [Some 1735230500; None].
Proof.
  intros w1.
  destruct (second_delete_moves_the_tombstone "p1" Sample.world0 Sample.cat 500
              eq_refl eq_refl) as (H1 & H2 & H3).
  split; [reflexivity|].
  apply find_some in H3. vm_compute. reflexivity.
Defined.

Section UploadAndCache.

Context {codec : JsonCodec}.

(** An upload leaves the clock, the backend and every cache entry as they
    were. *)
Lemma uploadPhoto_keeps_cache req cuid w :
  CacheKept w (snd (uploadPhoto req cuid w)).
Proof.
  unfold uploadPhoto. rewrite snd_try_next.
  destruct (u_file req) as [f|]; [|repeat split].
  destruct (negb (field_truthy (u_tags req))); [repeat split|].
  unfold bind at 1. rewrite prisma_count_all.
  destruct (50 <=? Z.of_nat (length (table photo w))) eqn:E; [repeat split|].
  apply Z.leb_gt in E. unfold bind at 1.
  assert (Htail : forall w2, clock w2 = clock w -> health w2 = health w ->
            cache w2 = cache w -> photoTable w2 = photoTable w ->
            CacheKept w
              (snd ((let* parsed := json_parse (default EmptyString (u_tags req)) in
                     let* a := prisma_create photo
                                 (mkCreateData ("/uploads/" +:+ f) parsed
                                               (u_imageId req)) cuid in
                     ret (res_status_json 201 (asset_json a))) w2))).
  { intros w2 Hc Hh Hk Hp.
    destruct (create_tail_step photo ("/uploads/" +:+ f)
                (default EmptyString (u_tags req)) (u_imageId req) cuid 50 w2)
      as (H1 & H2 & H3 & _).
    - simpl. rewrite Hp. simpl in E. lia.
    - repeat split; congruence. }
  destruct (field_truthy (u_imageId req)).
  - unfold prisma_findUnique.
    destruct (find_by_id _ _); [repeat split|]. apply Htail; reflexivity.
  - apply Htail; reflexivity.
Qed.

End UploadAndCache.

(** X20: an upload does not touch the cache, so a tag search cached
    before it keeps being answered from its entry: the new photo is
    missing from that answer until the entry has expired. *)
Theorem upload_leaves_cached_search_stale {codec : JsonCodec}
    (tagsText : string) (w : World) (data : string) (expiry : Z) (v : json)
    (req : UploadRequest) (cuid : string)
    (Hvalid : JsString.truthy tagsText = true)
    (Hup : forall msg, health w <> Unreachable msg)
    (Hentry : cache w !! photosTagsKey tagsText = Some (data, expiry))
    (Hnonempty : JsString.truthy data = true)
    (Hparse : JSON_parse data = Some v) :
  let w1 := snd (uploadPhoto req cuid w) in
  cache w1 = cache w
  /\ forall d, 0 <= d -> clock w + d < expiry ->
       searchPhotosByTags (VString tagsText) (advance d w1)
       = (Ret (res_json v),
          record_call (RedisGet (photosTagsKey tagsText)) (advance d w1)).
Proof.
  intros w1.
  destruct (uploadPhoto_keeps_cache req cuid w) as (Hc & Hh & Hk).
  fold w1 in Hc, Hh, Hk.
  split; [exact Hk|].
  intros d Hd Hlt.
  rewrite searchPhotosByTags_valid by exact Hvalid.
  rewrite (fetch_hit photo tagsText (photosTagsKey tagsText) _ (advance d w1) data).
  - rewrite Hparse. reflexivity.
  - simpl. rewrite Hh. exact Hup.
  - unfold cache_lookup. simpl. rewrite Hk, Hentry, Hc.
    destruct (Z.ltb_spec (clock w + d) expiry); [reflexivity | lia].
  - exact Hnonempty.
Qed.

(** The tag [pet] is searched, a third photo tagged [pet] is uploaded,
    and the search ten seconds later still lists two photos; the store
    holds three. *)
Lemma upload_leaves_cached_search_stale_witness :
  let w0 := snd (searchPhotosByTags (VString "pet") Sample.world0) in
  let w1 := snd (uploadPhoto SampleUpload.request "cnew" w0) in
  length (photoTable w1) = 3%nat
  /\ fst (searchPhotosByTags (VString "pet") (advance 10 w1))
     = Ret (res_json (JArr [asset_json Sample.cat; asset_json Sample.dog])).
Proof.
  intros w0 w1. split; [reflexivity|].
  destruct (upload_leaves_cached_search_stale "pet" w0
              (JSON_stringify (JArr [asset_json Sample.cat; asset_json Sample.dog]))
              1735233600
              (JArr [asset_json Sample.cat; asset_json Sample.dog])
              SampleUpload.request "cnew") as [_ H].
  - reflexivity.
  - intros msg. discriminate.
  - vm_compute. reflexivity.
  - vm_compute. reflexivity.
  - vm_compute. reflexivity.
  - fold w1 in H. rewrite (H 10); [reflexivity | lia | vm_compute; reflexivity].
Defined.

(** * Cache keys *)

(** X21: the three families of cache keys never meet: a by-id key is
    never a tag-search key, a photo tag-search key is never a video one,
    and two ids have the same by-id key only when they are the same id.
    An entry written for one query is therefore never served to a query
    of another kind. *)
Theorem cache_key_families_are_disjoint (a b : string) :
  photoIdKey a <> photosTagsKey b
  /\ photoIdKey a <> videosTagsKey b
  /\ photosTagsKey a <> videosTagsKey b
  /\ (photoIdKey a = photoIdKey b <-> a = b).
Proof.
  unfold photoIdKey, photosTagsKey, videosTagsKey. simpl.
  repeat split; try discriminate.
  - intros H. injection H as H. exact H.
  - intros ->. reflexivity.
Qed.

(** * Stored file names *)

Section FileNames.

Lemma digits_have_no_dash d :
  JsString.has_char "-" (NilEmpty.string_of_uint d) = false.
Proof. induction d; simpl; auto. Qed.

Lemma decimal_has_no_dash n :
  0 <= n -> JsString.has_char "-" (decimal n) = false.
Proof.
  intros Hn. unfold decimal. destruct n as [|p|p]; [reflexivity| |lia].
  simpl. unfold NilZero.string_of_uint.
  destruct (Pos.to_uint p); try apply digits_have_no_dash. reflexivity.
Qed.

Lemma decimal_inj a b : decimal a = decimal b -> a = b.
Proof.
  unfold decimal. intros H.
  assert (Hnn : forall z, Z.to_int z <> Decimal.Pos Decimal.Nil
                          /\ Z.to_int z <> Decimal.Neg Decimal.Nil).
  { intros [|p|p]; simpl; split; try discriminate;
      intros [= E]; exact (Unsigned.to_uint_nonnil p E). }
  apply (f_equal NilZero.int_of_string) in H.
  rewrite !NilZero.isi in H by apply Hnn.
  injection H as H. apply (f_equal Z.of_int) in H.
  rewrite !DecimalZ.of_to in H. exact H.
Qed.

(** Two texts that agree up to and after their first dash. *)
Lemma split_at_dash x x' r r' :
  JsString.has_char "-" x = false -> JsString.has_char "-" x' = false ->
  x +:+ String "-" r = x' +:+ String "-" r' -> x = x' /\ r = r'.
Proof.
  revert x'. induction x as [|c x IH]; intros [|c' x'] Hx Hx' E; simpl in *.
  - injection E as E. auto.
  - injection E as E1 E2. subst c'. discriminate Hx'.
  - injection E as E1 E2. subst c. discriminate Hx.
  - apply orb_false_iff in Hx as [_ Hx]. apply orb_false_iff in Hx' as [_ Hx'].
    injection E as -> E. destruct (IH x' Hx Hx' E) as [-> ->]. auto.
Qed.

Lemma append_assoc' (a b c : string) : (a +:+ b) +:+ c = a +:+ (b +:+ c).
Proof.
  induction a as [|x a IH]; [reflexivity|]. exact (f_equal (String x) IH).
Qed.

Lemma append_inj_l (p a b : string) : p +:+ a = p +:+ b -> a = b.
Proof.
  induction p as [|x p IH]; intros H; [exact H|].
  apply IH. change (String x (p +:+ a) = String x (p +:+ b)) in H.
  injection H as H. exact H.
Qed.

End FileNames.

(** X22: the name a file is stored under, and so its [url], identifies
    the upload: two uploads are given the same [url] only if they came in
    the same millisecond, drew the same random number and carry the same
    original name. *)
Theorem stored_url_identifies_the_upload
    (now now' rnd rnd' : Z) (name name' : string)
    (Hnow : 0 <= now) (Hnow' : 0 <= now')
    (Hrnd : 0 <= rnd) (Hrnd' : 0 <= rnd') :
  uploadUrl (storedFilename now rnd name)
    = uploadUrl (storedFilename now' rnd' name') ->
  now = now' /\ rnd = rnd' /\ name = name'.
Proof.
  unfold uploadUrl, storedFilename, uniqueSuffix. intros H.
  apply append_inj_l in H. rewrite !append_assoc' in H.
  destruct (split_at_dash (decimal now) (decimal now')
              (decimal rnd +:+ String "-" name)
              (decimal rnd' +:+ String "-" name')
              (decimal_has_no_dash now Hnow) (decimal_has_no_dash now' Hnow') H)
    as [Hn H1].
  destruct (split_at_dash (decimal rnd) (decimal rnd') name name'
              (decimal_has_no_dash rnd Hrnd) (decimal_has_no_dash rnd' Hrnd') H1)
    as [Hr Ho].
  auto using decimal_inj.
Qed.

(** The name of [cat.png] stored at 1735230000123 with the draw 42, and
    with the draw 43. *)
Lemma stored_url_identifies_the_upload_witness :
  storedFilename 1735230000123 42 "cat.png" = "1735230000123-42-cat.png"
  /\ uploadUrl (storedFilename 1735230000123 42 "cat.png")
     <> uploadUrl (storedFilename 1735230000123 43 "cat.png").
Proof.
  split; [reflexivity|].
  intros H.
  apply (stored_url_identifies_the_upload 1735230000123 1735230000123 42 43
           "cat.png" "cat.png") in H; lia.
Defined.
